(** * validate_jira_msg: the DSO commit-message hook

    A shallow embedding of [scripts/validate_jira_msg.py] and the properties
    of its validator and of its entry point.

    Python's [str] is a sequence of Unicode code points; it is modelled as a
    list of code points.  The builtins the script calls ([strip],
    [splitlines], [split], [lower], [rstrip], [in], [join], [sorted],
    [os.path.basename], [re.match]) are written out as functions on such
    lists, exceptions as a result type. *)

From Stdlib Require Import List NArith ZArith Bool String Ascii Lia.
From Stdlib Require Import Permutation.
Import ListNotations.

Local Open Scope N_scope.
Local Open Scope list_scope.

(* ================================================================= *)
(** ** Strings *)

(** A Python [str]: its code points in order. *)
Definition str : Type := list N.

(** A string literal of the source (all of them are ASCII). *)
Definition lit (s : string) : str := map N_of_ascii (list_ascii_of_string s).

(** A character literal. *)
Definition ch (a : ascii) : N := N_of_ascii a.

Definition LF : N := 0x0A.
Definition CR : N := 0x0D.

Fixpoint str_eqb (a b : str) : bool :=
  match a, b with
  | [], [] => true
  | x :: a', y :: b' => (x =? y) && str_eqb a' b'
  | _, _ => false
  end.

(** [x in xs] for a collection of strings. *)
Definition str_in (x : str) (xs : list str) : bool :=
  existsb (str_eqb x) xs.

(** Truth value of a string: non-empty. *)
Definition truthy (s : str) : bool :=
  match s with [] => false | _ :: _ => true end.

Fixpoint drop_while (p : N -> bool) (s : str) : str :=
  match s with
  | [] => []
  | c :: s' => if p c then drop_while p s' else s
  end.

Fixpoint take_while (p : N -> bool) (s : str) : str :=
  match s with
  | [] => []
  | c :: s' => if p c then c :: take_while p s' else []
  end.

(** [str.isspace] on one code point: the code points [str.strip()] removes. *)
Definition isspace (c : N) : bool :=
  ((0x09 <=? c) && (c <=? 0x0D)) || ((0x1C <=? c) && (c <=? 0x20))
  || (c =? 0x85) || (c =? 0xA0) || (c =? 0x1680)
  || ((0x2000 <=? c) && (c <=? 0x200A))
  || (c =? 0x2028) || (c =? 0x2029) || (c =? 0x202F) || (c =? 0x205F)
  || (c =? 0x3000).

(** The line boundaries of [str.splitlines]. *)
Definition is_linebreak (c : N) : bool :=
  ((0x0A <=? c) && (c <=? 0x0D)) || ((0x1C <=? c) && (c <=? 0x1E))
  || (c =? 0x85) || (c =? 0x2028) || (c =? 0x2029).

Definition lstrip (s : str) : str := drop_while isspace s.
Definition rstrip (s : str) : str := rev (drop_while isspace (rev s)).

(** [s.strip()] *)
Definition strip (s : str) : str := rstrip (lstrip s).

(** [s.rstrip(chars)] *)
Definition rstrip_chars (chars : str) (s : str) : str :=
  rev (drop_while (fun c => existsb (N.eqb c) chars) (rev s)).

(** [s.splitlines()]: the lines without their boundaries; a carriage return
    followed by a line feed is one boundary, and a boundary at the very end
    opens no further line. *)
Fixpoint splitlines (s : str) : list str :=
  match s with
  | [] => []
  | c :: s' =>
      if is_linebreak c then
        [] :: match s' with
              | d :: s'' => if (c =? CR) && (d =? LF) then splitlines s''
                            else splitlines s'
              | [] => splitlines s'
              end
      else
        match splitlines s' with
        | [] => [[c]]
        | l :: ls => (c :: l) :: ls
        end
  end.

Fixpoint starts_with (p s : str) : bool :=
  match p, s with
  | [], _ => true
  | x :: p', y :: s' => (x =? y) && starts_with p' s'
  | _ :: _, [] => false
  end.

(** The first occurrence of [sep] in [s]: the text before it and the text
    after it. *)
Fixpoint partition_at (sep s : str) : option (str * str) :=
  if starts_with sep s then Some ([], skipn (List.length sep) s)
  else match s with
       | [] => None
       | c :: s' =>
           match partition_at sep s' with
           | Some (before, after) => Some (c :: before, after)
           | None => None
           end
       end.

(** [s.split(sep, maxsplit=1)] for a non-empty [sep]. *)
Definition split_once (sep s : str) : list str :=
  match partition_at sep s with
  | Some (before, after) => [before; after]
  | None => [s]
  end.

(** [needle in hay] for strings. *)
Fixpoint contains (needle hay : str) : bool :=
  starts_with needle hay ||
  match hay with
  | [] => false
  | _ :: hay' => contains needle hay'
  end.

(** [sep.join(xs)] *)
Fixpoint join (sep : str) (xs : list str) : str :=
  match xs with
  | [] => []
  | [x] => x
  | x :: xs' => x ++ sep ++ join sep xs'
  end.

(** Order of strings: code point by code point, a proper prefix first. *)
Fixpoint str_leb (a b : str) : bool :=
  match a, b with
  | [], _ => true
  | _ :: _, [] => false
  | x :: a', y :: b' => (x <? y) || ((x =? y) && str_leb a' b')
  end.

Fixpoint insert_sorted (x : str) (xs : list str) : list str :=
  match xs with
  | [] => [x]
  | y :: ys => if str_leb x y then x :: xs else y :: insert_sorted x ys
  end.

(** [sorted(xs)] *)
Definition sorted (xs : list str) : list str :=
  fold_right insert_sorted [] xs.

(** [os.path.basename] (POSIX): what follows the last slash. *)
Fixpoint basename (p : str) : str :=
  match p with
  | [] => []
  | c :: p' =>
      if existsb (N.eqb (ch "/")) p' then basename p'
      else if c =? ch "/" then p' else p
  end.

(** Lower case of an ASCII letter. *)
Definition ascii_lower (c : N) : N :=
  if (ch "A" <=? c) && (c <=? ch "Z") then c + 32 else c.

(** The case table Python takes from its Unicode database, for the code
    points above U+007F: given the text before a code point, the code point
    and the text after it, the code points it lowers to (one code point lowers
    to two, and capital sigma depends on its place in the word).  The table
    is not part of the repository; the validator is stated over any such
    table. *)
Definition case_table : Type := str -> N -> str -> str.

(** A table that gives no lower case to any code point above U+007F. *)
Definition caseless : case_table := fun _ c _ => [c].

Fixpoint lower_from (tbl : case_table) (before : str) (s : str) : str :=
  match s with
  | [] => []
  | c :: s' =>
      (if c <? 0x80 then [ascii_lower c] else tbl before c s')
        ++ lower_from tbl (before ++ [c]) s'
  end.

(** [s.lower()] *)
Definition lower (tbl : case_table) (s : str) : str := lower_from tbl [] s.

(* ================================================================= *)
(** ** Exceptions *)

Inductive exn : Type :=
| IndexError
| OSError
| RuntimeError
| UnicodeDecodeError.

(** The outcome of a call: the value it returns or the exception it
    raises. *)
Inductive result (A : Type) : Type :=
| Return (a : A)
| Raise (e : exn).
Arguments Return {A} a.
Arguments Raise {A} e.

Definition bind {A B : Type} (m : result A) (k : A -> result B) : result B :=
  match m with
  | Return a => k a
  | Raise e => Raise e
  end.

Notation "x <- m ;; k" := (bind m (fun x => k))
  (at level 61, m at next level, right associativity).

(** [xs[0]] *)
Definition item_first {A : Type} (xs : list A) : result A :=
  match xs with
  | x :: _ => Return x
  | [] => Raise IndexError
  end.

(** [xs[-1]] *)
Fixpoint item_last {A : Type} (xs : list A) : result A :=
  match xs with
  | [] => Raise IndexError
  | [x] => Return x
  | _ :: xs' => item_last xs'
  end.

(** [xs[1]] *)
Definition item_second {A : Type} (xs : list A) : result A :=
  match xs with
  | _ :: x :: _ => Return x
  | _ => Raise IndexError
  end.

(* ================================================================= *)
(** ** Regular expressions

    The fragment of [re] that [JIRA_PATTERN] is written in: the two anchors,
    one character, and one character repeated once or more.  The matcher
    tries the longest repetition first and backtracks, as [re] does. *)

Inductive atom : Type :=
| Chr (c : N)              (* a literal character *)
| Range (lo hi : N)        (* [lo-hi] *)
| Dot.                     (* . : anything but a line feed *)

Inductive item : Type :=
| Bol                      (* ^ *)
| Eol                      (* $ *)
| One (a : atom)
| Plus (a : atom).         (* a+ *)

Definition pattern : Type := list item.

Definition atom_ok (a : atom) (c : N) : bool :=
  match a with
  | Chr x => c =? x
  | Range lo hi => (lo <=? c) && (c <=? hi)
  | Dot => negb (c =? LF)
  end.

(** [$] holds at the end of the text and before a line feed that ends it. *)
Definition at_eol (s : str) : bool :=
  match s with
  | [] => true
  | [c] => c =? LF
  | _ => false
  end.

Fixpoint match_here (p : pattern) (at_start : bool) (s : str) : bool :=
  match p with
  | [] => true
  | Bol :: p' => at_start && match_here p' at_start s
  | Eol :: p' => at_eol s && match_here p' at_start s
  | One a :: p' =>
      match s with
      | c :: s' => atom_ok a c && match_here p' false s'
      | [] => false
      end
  | Plus a :: p' =>
      (fix more (s : str) : bool :=
         match s with
         | c :: s' => atom_ok a c && (more s' || match_here p' false s')
         | [] => false
         end) s
  end.

(** [pattern.match(s)], as a truth value: a match at the start of [s]. *)
Definition re_match (p : pattern) (s : str) : bool := match_here p true s.

(* ================================================================= *)
(** ** The file system *)

(** What an absolute path names: nothing, something that is not a regular
    file, a regular file, whose text is read or whose reading fails, or
    something the path does not lead to (a directory on the way that may not
    be searched, say), which makes [stat] fail with an error that [is_file]
    does not take for an answer. *)
Inductive entry : Type :=
| Absent
| NotAFile
| RegularFile (text : result str)
| Unreachable (e : exn).

(** The file system as the script meets it: what a relative path resolves
    to from the working directory, and what each absolute path names. *)
Record filesystem : Type := FileSystem {
  resolve : str -> result str;
  entry_at : str -> entry
}.

(** [Path.is_file]: an answer, or the error of [stat] when it is none of
    those that mean a missing file. *)
Definition is_file (fs : filesystem) (p : str) : result bool :=
  match entry_at fs p with
  | RegularFile _ => Return true
  | Unreachable e => Raise e
  | _ => Return false
  end.

(** [Path.read_text] *)
Definition read_text (fs : filesystem) (p : str) : result str :=
  match entry_at fs p with
  | RegularFile text => text
  | Unreachable e => Raise e
  | _ => Raise OSError
  end.

(** [Path(dir) / name], for a resolved [dir] and a [name] without slash: the
    root directory is the one path that ends in a slash. *)
Definition path_join (dir name : str) : str :=
  if str_eqb dir (lit "/") then dir ++ name else dir ++ [ch "/"] ++ name.

(** [print(text, file=sys.stderr)] *)
Definition print (text : str) : str := text ++ [LF].

(** What one run of the script leaves behind: the text on standard error and
    the exit status [main] returns, or the exception that ends it. *)
Record run : Type := Run { stderr : str; outcome : result Z }.

(* ================================================================= *)
(** ** Configuration *)

(** [re.compile(r"^DSO-[0-9]+: [A-Z].+$")] *)
Definition JIRA_PATTERN : pattern :=
  [ Bol; One (Chr (ch "D")); One (Chr (ch "S")); One (Chr (ch "O"));
    One (Chr (ch "-")); Plus (Range (ch "0") (ch "9"));
    One (Chr (ch ":")); One (Chr (ch " "));
    One (Range (ch "A") (ch "Z")); Plus Dot; Eol ].

Definition LAZY_SUMMARIES : list str :=
  [ lit "fix"; lit "fix."; lit "work"; lit "wip"; lit "..."; lit "update";
    lit "changes"; lit "stuff"; lit "test"; lit "done" ].

Definition _ALLOWED_MSG_FILES : list str :=
  [ lit "COMMIT_EDITMSG"; lit "MERGE_MSG"; lit "SQUASH_MSG";
    lit "TAG_EDITMSG" ].

(* ================================================================= *)
(** ** Validation *)

Definition empty_message : str := lit "Commit message is empty.".

Definition lazy_message (first_line : str) : str :=
  lit "Lazy commit summary rejected: '" ++ first_line ++ lit "'" ++ [LF]
  ++ lit "  Summaries like 'fix', 'work', or '...' are not allowed." ++ [LF]
  ++ lit "  Write a meaningful description of the change.".

Definition pattern_message (first_line : str) : str :=
  lit "Commit rejected: '" ++ first_line ++ lit "'" ++ [LF]
  ++ lit "  Every commit must reference a Jira ticket from the DSO project."
  ++ [LF]
  ++ lit "  Required format: DSO-<number>: <Capitalized summary>" ++ [LF]
  ++ lit "  Example:         DSO-42: Implement rate limiter with 20% jitter".

Definition usage_message : str :=
  lit "Usage: validate_jira_msg.py <commit-msg-file>".

Definition refusal_message (arg : str) : str :=
  lit "Error: '" ++ arg ++ lit "' is not a recognized git commit message file."
  ++ [LF]
  ++ lit "  Expected one of: " ++ join (lit ", ") (sorted _ALLOWED_MSG_FILES).

(** The cross mark that opens a rejection, U+274C. *)
Definition cross_mark : N := 0x274C.

Definition failure_message (error : str) : str :=
  [LF; cross_mark; ch " "] ++ error ++ [LF].

Section Script.

(** The case table of the Python that runs the script. *)
Variable tbl : case_table.

(** [message.strip().splitlines()[0] if message.strip() else ""] *)
Definition first_line_of (message : str) : result str :=
  if truthy (strip message) then item_first (splitlines (strip message))
  else Return [].

(** [first_line.split(": ", maxsplit=1)[-1].strip().lower().rstrip(".")] *)
Definition summary_part_of (first_line : str) : result str :=
  tail <- item_last (split_once (lit ": ") first_line) ;;
  Return (rstrip_chars (lit ".") (lower tbl (strip tail))).

(** The error string of an invalid message, [None] for a valid one. *)
Definition validate_commit_message (message : str) : result (option str) :=
  first_line <- first_line_of message ;;
  if negb (truthy first_line) then Return (Some empty_message)
  else
    summary_part <- summary_part_of first_line ;;
    if str_in summary_part LAZY_SUMMARIES then
      Return (Some (lazy_message first_line))
    else if negb (re_match JIRA_PATTERN first_line) then
      Return (Some (pattern_message first_line))
    else Return None.

(** The path of the commit message file in the resolved [.git] directory,
    [None] when the argument does not name one. *)
Definition _safe_commit_msg_path (fs : filesystem) (raw_arg : str)
  : result (option str) :=
  let name := basename raw_arg in
  if negb (str_in name _ALLOWED_MSG_FILES) then Return None
  else
    git_dir <- resolve fs (lit ".git") ;;
    let safe_path := path_join git_dir name in
    file <- is_file fs safe_path ;;
    if negb file then Return None
    else Return (Some safe_path).

Definition raised (e : exn) : run := Run [] (Raise e).

(** [main()], on the file system [fs] with [sys.argv = argv]. *)
Definition main (fs : filesystem) (argv : list str) : run :=
  if (List.length argv <? 2)%nat then Run (print usage_message) (Return 1%Z)
  else
    match item_second argv with
    | Raise e => raised e
    | Return arg =>
        match _safe_commit_msg_path fs arg with
        | Raise e => raised e
        | Return None => Run (print (refusal_message arg)) (Return 1%Z)
        | Return (Some commit_msg_path) =>
            match read_text fs commit_msg_path with
            | Raise e => raised e
            | Return message =>
                match validate_commit_message message with
                | Raise e => raised e
                | Return (Some error) =>
                    Run (print (failure_message error)) (Return 1%Z)
                | Return None => Run [] (Return 0%Z)
                end
            end
        end
    end.

End Script.

(* ================================================================= *)
(** ** The vocabulary of the specification *)

(** A text mentions a word. *)
Definition mentions (word : string) (text : str) : Prop :=
  contains (lit word) text = true.

(** A whitespace-only string (the empty string is one). *)
Definition blank (s : str) : Prop := forallb isspace s = true.

(** The first line of the trimmed message: what precedes its first line
    boundary. *)
Definition first_line (message : str) : str :=
  take_while (fun c => negb (is_linebreak c)) (strip message).

(** The text after the first colon-and-space of a line, the whole line when
    there is none. *)
Definition text_after_colon (line : str) : str :=
  match partition_at (lit ": ") line with
  | Some (_, after) => after
  | None => line
  end.

(** The text the lazy-summary check looks at: trimmed and lowercased. *)
Definition lazy_check_text (tbl : case_table) (line : str) : str :=
  lower tbl (strip (text_after_colon line)).

Definition strip_periods (s : str) : str := rstrip_chars (lit ".") s.

(** The placeholders of the specification. *)
Definition denylist : list str :=
  [ lit "fix"; lit "work"; lit "wip"; lit "..."; lit "update";
    lit "changes"; lit "stuff"; lit "test"; lit "done" ].

(** Membership that does not see trailing periods. *)
Definition in_denylist (text : str) : bool :=
  existsb (fun d => str_eqb (strip_periods text) (strip_periods d)) denylist.

Definition is_digit (c : N) : bool := (ch "0" <=? c) && (c <=? ch "9").
Definition is_capital (c : N) : bool := (ch "A" <=? c) && (c <=? ch "Z").

(** A line of the form [DSO-<digits>: <capital><rest>] whose rest has at
    least [least] characters. *)
Definition ticket_shape (least : nat) (line : str) : Prop :=
  exists digits c rest,
    line = lit "DSO-" ++ digits ++ lit ": " ++ c :: rest
    /\ digits <> []
    /\ forallb is_digit digits = true
    /\ is_capital c = true
    /\ (least <= List.length rest)%nat.

(** The shape as the specification words it: any rest, also none. *)
Definition spec_shape (line : str) : Prop := ticket_shape 0 line.

(** The shape [JIRA_PATTERN] asks for: a rest of one character or more. *)
Definition jira_shape (line : str) : Prop := ticket_shape 1 line.

Definition no_line_feed (s : str) : bool :=
  forallb (fun c => negb (c =? LF)) s.



(** What follows the echoed argument in a refusal. *)
Definition refusal_tail : str :=
  lit "' is not a recognized git commit message file." ++ [LF]
  ++ lit "  Expected one of: COMMIT_EDITMSG, MERGE_MSG, SQUASH_MSG, TAG_EDITMSG"
  ++ [LF].

(** A repository at [/repo]: every relative path resolves under it. *)
Definition under_repo (p : str) : result str := Return (lit "/repo/" ++ p).

(** A [.git] directory that holds one commit message. *)
Definition one_message (text : str) : filesystem :=
  FileSystem under_repo
    (fun p =>
       if str_eqb p (lit "/repo/.git/COMMIT_EDITMSG")
       then RegularFile (Return text)
       else Absent).

(** A directory without any file. *)
Definition no_files : filesystem := FileSystem under_repo (fun _ => Absent).


(** A [.git] directory whose every entry is a directory. *)
Definition only_directories : filesystem :=
  FileSystem under_repo (fun _ => NotAFile).

(** A [.git] directory whose files cannot be read. *)
Definition unreadable_files : filesystem :=
  FileSystem under_repo (fun _ => RegularFile (Raise OSError)).

(** The four paths [_safe_commit_msg_path] can return when [.git] resolves
    to [git_dir]. *)
Definition safe_paths (git_dir : str) : list str :=
  map (path_join git_dir) _ALLOWED_MSG_FILES.

(** Two file systems that resolve [.git] alike and hold the same at the
    four commit message files of that directory. *)
Definition agree_on_git (fs1 fs2 : filesystem) : Prop :=
  resolve fs1 (lit ".git") = resolve fs2 (lit ".git")
  /\ forall git_dir p,
      resolve fs1 (lit ".git") = Return git_dir ->
      In p (safe_paths git_dir) -> entry_at fs1 p = entry_at fs2 p.

Definition has_slash (p : str) : bool := existsb (N.eqb (ch "/")) p.

(** A string of ASCII characters. *)
Definition ascii_only (s : str) : bool := forallb (fun c => c <? 0x80) s.

Definition is_letter (c : N) : bool :=
  ((ch "A" <=? c) && (c <=? ch "Z")) || ((ch "a" <=? c) && (c <=? ch "z")).

Definition is_small (c : N) : bool := (ch "a" <=? c) && (c <=? ch "z").

Definition is_period (c : N) : bool := existsb (N.eqb c) (lit ".").

(** The entries of [LAZY_SUMMARIES] that do not end in a period. *)
Definition live_summaries : list str :=
  [ lit "fix"; lit "work"; lit "wip"; lit "update"; lit "changes";
    lit "stuff"; lit "test"; lit "done" ].

(** [k] trailing periods. *)
Definition periods (k : nat) : str := repeat (ch ".") k.

(** A first line between the quotes the reasons put around it. *)
Definition quoted (line : str) : str := lit "'" ++ line ++ lit "'".

(** What follows the quoted line in the two reasons that quote it. *)
Definition lazy_advice : str :=
  [LF] ++ lit "  Summaries like 'fix', 'work', or '...' are not allowed."
  ++ [LF] ++ lit "  Write a meaningful description of the change.".

Definition pattern_advice : str :=
  [LF]
  ++ lit "  Every commit must reference a Jira ticket from the DSO project."
  ++ [LF]
  ++ lit "  Required format: DSO-<number>: <Capitalized summary>" ++ [LF]
  ++ lit "  Example:         DSO-42: Implement rate limiter with 20% jitter".

(** Two file systems whose files differ at most in what follows the first
    line of their text. *)
Definition same_first_lines (fs1 fs2 : filesystem) : Prop :=
  resolve fs1 (lit ".git") = resolve fs2 (lit ".git")
  /\ forall p,
      match entry_at fs1 p, entry_at fs2 p with
      | RegularFile (Return text1), RegularFile (Return text2) =>
          first_line text1 = first_line text2
      | entry1, entry2 => entry1 = entry2
      end.

(** The assertions of the test suite on a result of the validator:
    [is None], [is not None], and [word in err]. *)
Definition is_none (r : result (option str)) : Prop := r = Return None.

Definition is_not_none (r : result (option str)) : Prop :=
  exists err, r = Return (Some err).

Definition err_has (word : string) (r : result (option str)) : Prop :=
  exists err, r = Return (Some err) /\ contains (lit word) err = true.

(* ================================================================= *)
(** ** Facts about the string functions *)

Lemma str_eqb_eq (a b : str) : str_eqb a b = true <-> a = b.
Proof.
  revert b; induction a as [|x a IH]; intros [|y b]; simpl;
    try (split; [discriminate | congruence]); try tauto.
  rewrite andb_true_iff, N.eqb_eq, IH.
  split; [intros [-> ->]; reflexivity | intros H; inversion H; auto].
Qed.

Lemma str_eqb_refl (a : str) : str_eqb a a = true.
Proof. apply str_eqb_eq; reflexivity. Qed.

Lemma drop_while_all (p : N -> bool) (s : str) :
  forallb p s = true -> drop_while p s = [].
Proof.
  induction s as [|c s IH]; simpl; [reflexivity|].
  rewrite andb_true_iff; intros [-> H]; auto.
Qed.

(** Dropping from a concatenation: the second part is reached only when the
    first is dropped whole. *)
Lemma drop_while_app (p : N -> bool) (a b : str) :
  drop_while p (a ++ b) =
  match drop_while p a with
  | [] => drop_while p b
  | _ :: _ => drop_while p a ++ b
  end.
Proof.
  induction a as [|c a IH]; simpl; [reflexivity|].
  destruct (p c); [exact IH | reflexivity].
Qed.

Lemma drop_while_suffix (p : N -> bool) (s : str) :
  exists t, s = t ++ drop_while p s.
Proof.
  induction s as [|c s [t IH]]; simpl.
  - exists []; reflexivity.
  - destruct (p c).
    + exists (c :: t); simpl; congruence.
    + exists []; reflexivity.
Qed.

Lemma drop_while_head (p : N -> bool) (s : str) (c : N) (t : str) :
  drop_while p s = c :: t -> p c = false.
Proof.
  induction s as [|d s IH]; simpl; [discriminate|].
  destruct (p d) eqn:E; [exact IH | intros H; inversion H; subst; exact E].
Qed.

Lemma forallb_drop_while (q p : N -> bool) (s : str) :
  forallb q s = true -> forallb q (drop_while p s) = true.
Proof.
  induction s as [|c s IH]; simpl; [reflexivity|].
  intros H; destruct (p c); [|exact H].
  apply andb_true_iff in H as [_ H]; exact (IH H).
Qed.

Lemma take_drop_while (p : N -> bool) (s : str) :
  s = take_while p s ++ drop_while p s.
Proof.
  induction s as [|c s IH]; simpl; [reflexivity|].
  destruct (p c); simpl; [rewrite <- IH|]; reflexivity.
Qed.

Lemma take_while_all (p : N -> bool) (s : str) :
  forallb p (take_while p s) = true.
Proof.
  induction s as [|c s IH]; simpl; [reflexivity|].
  destruct (p c) eqn:E; simpl; [rewrite E; exact IH | reflexivity].
Qed.

Lemma take_while_app (p : N -> bool) (a b : str) :
  forallb p a = true ->
  match b with [] => True | c :: _ => p c = false end ->
  take_while p (a ++ b) = a.
Proof.
  intros Ha Hb; induction a as [|x a IH]; simpl in *.
  - destruct b as [|c b]; simpl; [reflexivity | rewrite Hb; reflexivity].
  - apply andb_true_iff in Ha as [-> Ha]; rewrite IH by exact Ha; reflexivity.
Qed.

Lemma forallb_rev (p : N -> bool) (s : str) :
  forallb p (rev s) = forallb p s.
Proof.
  induction s as [|c s IH]; simpl; [reflexivity|].
  rewrite forallb_app, IH; simpl; rewrite andb_true_r; apply andb_comm.
Qed.

(** Every line boundary is whitespace, so a trimmed message neither starts
    nor ends with one. *)
Lemma linebreak_isspace (c : N) : is_linebreak c = true -> isspace c = true.
Proof.
  unfold is_linebreak, isspace.
  rewrite !orb_true_iff, !andb_true_iff, !N.leb_le, !N.eqb_eq; lia.
Qed.

Lemma lstrip_blank (s : str) : blank s -> lstrip s = [].
Proof. apply drop_while_all. Qed.

Lemma strip_blank (s : str) : blank s -> strip s = [].
Proof. intros H; unfold strip; rewrite (lstrip_blank _ H); reflexivity. Qed.

(** What [rstrip] keeps is the front of the string. *)
Lemma rstrip_prefix (s : str) : exists t, s = rstrip s ++ t.
Proof.
  destruct (drop_while_suffix isspace (rev s)) as [t E].
  exists (rev t); unfold rstrip.
  rewrite <- rev_app_distr, <- E, rev_involutive; reflexivity.
Qed.

Lemma lstrip_app_blank (w s : str) : blank w -> lstrip (w ++ s) = lstrip s.
Proof.
  intros H; unfold lstrip.
  rewrite drop_while_app, (drop_while_all _ _ H); reflexivity.
Qed.

Lemma rstrip_app_blank (s w : str) : blank w -> rstrip (s ++ w) = rstrip s.
Proof.
  intros H; unfold rstrip.
  rewrite rev_app_distr, drop_while_app, drop_while_all; [reflexivity|].
  rewrite forallb_rev; exact H.
Qed.

(** Trimming does not see whitespace around the message. *)
Lemma strip_padding (w1 s w2 : str) :
  blank w1 -> blank w2 -> strip (w1 ++ s ++ w2) = strip s.
Proof.
  intros H1 H2; unfold strip.
  rewrite (lstrip_app_blank _ _ H1).
  unfold lstrip at 1; rewrite drop_while_app; fold (lstrip s).
  destruct (lstrip s) as [|c t] eqn:E.
  - fold (lstrip w2); rewrite (lstrip_blank _ H2); reflexivity.
  - apply rstrip_app_blank; exact H2.
Qed.

(** The first character of a trimmed message is no whitespace. *)
Lemma strip_head (s : str) (c : N) (t : str) :
  strip s = c :: t -> isspace c = false.
Proof.
  unfold strip; intros E.
  destruct (rstrip_prefix (lstrip s)) as [u Hu].
  rewrite E in Hu; simpl in Hu.
  exact (drop_while_head isspace s c (t ++ u) Hu).
Qed.

(** Trimming a string that neither starts nor ends with whitespace, followed
    by more text, keeps the string whole. *)
Lemma strip_app_keeps (l x : str) :
  l <> [] -> strip l = l -> strip (l ++ x) = l ++ rstrip x.
Proof.
  intros Hne Hl.
  destruct l as [|c l']; [congruence|].
  assert (Hc : isspace c = false) by (exact (strip_head _ _ _ Hl)).
  assert (Hls : forall y, lstrip ((c :: l') ++ y) = (c :: l') ++ y)
    by (intros y; unfold lstrip; simpl; rewrite Hc; reflexivity).
  unfold strip in *; rewrite Hls.
  pose proof (Hls []) as Hl0; rewrite app_nil_r in Hl0; rewrite Hl0 in Hl.
  unfold rstrip in *.
  rewrite rev_app_distr, drop_while_app.
  apply (f_equal (@rev N)) in Hl; rewrite rev_involutive in Hl.
  destruct (drop_while isspace (rev x)) as [|d u] eqn:E.
  - rewrite Hl, rev_involutive; simpl; rewrite app_nil_r; reflexivity.
  - rewrite rev_app_distr, rev_involutive; reflexivity.
Qed.

Lemma splitlines_head (s : str) :
  match s with
  | [] => splitlines s = []
  | _ :: _ =>
      exists rest,
        splitlines s = take_while (fun c => negb (is_linebreak c)) s :: rest
  end.
Proof.
  induction s as [|c s IH]; [reflexivity|].
  simpl; destruct (is_linebreak c); simpl.
  - eexists; reflexivity.
  - destruct s as [|d s']; [rewrite IH; eexists; reflexivity|].
    destruct IH as [rest ->]; eexists; reflexivity.
Qed.

(** A non-empty string has a first line: the index access of the validator
    is in range. *)
Lemma splitlines_nonempty (s : str) : s <> [] -> splitlines s <> [].
Proof.
  intros H; pose proof (splitlines_head s) as E.
  destruct s; [congruence|]; destruct E as [rest ->]; discriminate.
Qed.

Lemma first_line_of_spec (message : str) :
  first_line_of message = Return (first_line message).
Proof.
  unfold first_line_of, first_line.
  pose proof (splitlines_head (strip message)) as E.
  destruct (strip message) as [|c t]; simpl truthy; cbv iota.
  - reflexivity.
  - destruct E as [rest ->]; reflexivity.
Qed.

Lemma first_line_no_break (message : str) :
  forallb (fun c => negb (is_linebreak c)) (first_line message) = true.
Proof. apply take_while_all. Qed.

Lemma first_line_empty (message : str) :
  first_line message = [] <-> strip message = [].
Proof.
  unfold first_line; split; [|intros ->; reflexivity].
  destruct (strip message) as [|c t] eqn:E; [reflexivity|].
  simpl; destruct (is_linebreak c) eqn:B; simpl; [|discriminate].
  apply linebreak_isspace in B; rewrite (strip_head _ _ _ E) in B.
  discriminate.
Qed.

(* ================================================================= *)
(** ** Facts about the matcher *)

Lemma match_plus (a : atom) (p : pattern) (b : bool) (s : str) :
  match_here (Plus a :: p) b s =
  match s with
  | c :: s' =>
      atom_ok a c && (match_here (Plus a :: p) false s' || match_here p false s')
  | [] => false
  end.
Proof. destruct s; reflexivity. Qed.

Lemma match_bol (p : pattern) (s : str) :
  match_here (Bol :: p) true s = match_here p true s.
Proof. reflexivity. Qed.

Lemma match_one (a : atom) (p : pattern) (b : bool) (c : N) (s : str) :
  match_here (One a :: p) b (c :: s) = atom_ok a c && match_here p false s.
Proof. reflexivity. Qed.

(** A run of characters of the class, followed by text the rest of the
    pattern matches, is matched by the repetition. *)
Lemma plus_run (a : atom) (p : pattern) (run s : str) :
  run <> [] ->
  forallb (atom_ok a) run = true ->
  match_here p false s = true ->
  forall b, match_here (Plus a :: p) b (run ++ s) = true.
Proof.
  induction run as [|d run IH]; [congruence|].
  intros _ Hall Hp b; simpl in Hall; apply andb_true_iff in Hall as [Hd Hall].
  rewrite match_plus; simpl app; cbv iota; rewrite Hd; simpl andb.
  destruct run as [|e run'].
  - simpl app; rewrite Hp; apply orb_true_r.
  - apply orb_true_iff; left.
    assert (Hrun : e :: run' <> []) by discriminate.
    exact (IH Hrun Hall Hp false).
Qed.

(** What the repetition matched is such a run. *)
Lemma plus_inv (a : atom) (p : pattern) (s : str) :
  forall b,
    match_here (Plus a :: p) b s = true ->
    exists run s',
      s = run ++ s' /\ run <> [] /\ forallb (atom_ok a) run = true
      /\ match_here p false s' = true.
Proof.
  induction s as [|c s IH]; intros b H; rewrite match_plus in H;
    [discriminate|].
  apply andb_true_iff in H as [Hc H]; apply orb_true_iff in H as [H|H].
  - destruct (IH false H) as (run & s' & -> & _ & Hall & Hp).
    exists (c :: run), s'; simpl; rewrite Hc, Hall; repeat split; auto.
    discriminate.
  - exists [c], s; simpl; rewrite Hc; repeat split; auto; discriminate.
Qed.

Lemma no_break_no_line_feed (s : str) :
  forallb (fun c => negb (is_linebreak c)) s = true -> no_line_feed s = true.
Proof.
  unfold no_line_feed; rewrite !forallb_forall; intros H c Hc.
  specialize (H c Hc); destruct (c =? LF) eqn:E; [|reflexivity].
  apply N.eqb_eq in E; subst c; discriminate H.
Qed.

(** [JIRA_PATTERN] matches the lines of its shape. *)
Lemma jira_shape_matches (line : str) :
  no_line_feed line = true -> jira_shape line ->
  re_match JIRA_PATTERN line = true.
Proof.
  intros Hnl (digits & c & rest & -> & Hne & Hdig & Hcap & Hlen).
  unfold re_match, JIRA_PATTERN.
  change (lit "DSO-" ++ digits ++ lit ": " ++ c :: rest)
    with (ch "D" :: ch "S" :: ch "O" :: ch "-"
            :: digits ++ ch ":" :: ch " " :: c :: rest).
  rewrite match_bol, !match_one; cbn [atom_ok]; rewrite !N.eqb_refl.
  cbn [andb].
  apply plus_run; [exact Hne | exact Hdig |].
  rewrite !match_one; cbn [atom_ok]; rewrite !N.eqb_refl.
  cbn [andb]; fold (is_capital c); rewrite Hcap; cbn [andb].
  rewrite <- (app_nil_r rest); apply plus_run.
  - destruct rest; [simpl in Hlen; lia | discriminate].
  - unfold no_line_feed in Hnl; rewrite !forallb_app in Hnl.
    simpl in Hnl; rewrite !andb_true_iff in Hnl; apply Hnl.
  - reflexivity.
Qed.

(** One step of a match through a single character of the pattern: the text
    has a next character and the character is of the class. *)
Ltac match_step H s c Hc :=
  destruct s as [|c s]; [discriminate H|];
  rewrite match_one in H; apply andb_true_iff in H as [Hc H].

(** ... and only those: the matcher and the shape agree on every line. *)
Lemma jira_match_shape (line : str) :
  no_line_feed line = true ->
  re_match JIRA_PATTERN line = true -> jira_shape line.
Proof.
  unfold re_match, JIRA_PATTERN; intros Hnl H.
  rewrite match_bol in H.
  match_step H line c1 H1; match_step H line c2 H2.
  match_step H line c3 H3; match_step H line c4 H4.
  apply plus_inv in H as (digits & tail & -> & Hne & Hdig & H).
  match_step H tail c5 H5; match_step H tail c6 H6.
  match_step H tail c H7.
  apply plus_inv in H as (rest & last & -> & Hrest & _ & H).
  cbn [atom_ok] in *.
  apply N.eqb_eq in H1, H2, H3, H4, H5, H6; subst.
  assert (Hlast : last = []).
  { destruct last as [|x [|y l]]; [reflexivity | | discriminate H].
    simpl in H; rewrite andb_true_r in H; apply N.eqb_eq in H; subst x.
    unfold no_line_feed in Hnl; rewrite forallb_forall in Hnl.
    specialize (Hnl LF); rewrite N.eqb_refl in Hnl.
    assert (false = true); [apply Hnl | discriminate].
    do 4 right; apply in_or_app; right.
    do 3 right; apply in_or_app; right; left; reflexivity. }
  subst last; rewrite app_nil_r.
  exists digits, c, rest; repeat split; auto.
  destruct rest; [congruence | simpl; lia].
Qed.

(* ================================================================= *)
(** ** The validator *)

Section Validator.

Variable tbl : case_table.

Lemma summary_part_of_spec (line : str) :
  summary_part_of tbl line = Return (strip_periods (lazy_check_text tbl line)).
Proof.
  unfold summary_part_of, lazy_check_text, text_after_colon, split_once.
  destruct (partition_at (lit ": ") line) as [[before after]|]; reflexivity.
Qed.

(** The validator as a function of the first line of the trimmed message. *)
Lemma validate_cases (message : str) :
  validate_commit_message tbl message =
  Return
    match first_line message with
    | [] => Some empty_message
    | _ :: _ =>
        if str_in (strip_periods (lazy_check_text tbl (first_line message)))
             LAZY_SUMMARIES
        then Some (lazy_message (first_line message))
        else if re_match JIRA_PATTERN (first_line message) then None
             else Some (pattern_message (first_line message))
    end.
Proof.
  unfold validate_commit_message.
  rewrite first_line_of_spec; cbn [bind].
  destruct (first_line message) as [|c line] eqn:E; [reflexivity|].
  cbn [truthy negb]; rewrite summary_part_of_spec; cbn [bind].
  destruct (str_in _ LAZY_SUMMARIES); [reflexivity|].
  destruct (re_match JIRA_PATTERN (c :: line)); reflexivity.
Qed.

Lemma contains_skip (needle a b : str) :
  contains needle b = true -> contains needle (a ++ b) = true.
Proof.
  intros H; induction a as [|x a IH]; [exact H|].
  simpl; rewrite IH; apply orb_true_r.
Qed.

Lemma starts_with_app (needle b : str) : starts_with needle (needle ++ b) = true.
Proof.
  induction needle as [|x n IH]; [reflexivity|].
  simpl; rewrite N.eqb_refl, IH; reflexivity.
Qed.

Lemma contains_here (needle b : str) : contains needle (needle ++ b) = true.
Proof.
  destruct (needle ++ b) eqn:E; simpl; rewrite <- E, starts_with_app;
    reflexivity.
Qed.

(** A lazy summary is rejected as such, whatever the line looks like. *)
Lemma validate_lazy (message : str) :
  first_line message <> [] ->
  str_in (strip_periods (lazy_check_text tbl (first_line message)))
    LAZY_SUMMARIES = true ->
  validate_commit_message tbl message
  = Return (Some (lazy_message (first_line message)))
  /\ mentions "Lazy" (lazy_message (first_line message)).
Proof.
  intros Hne Hlazy; rewrite validate_cases, Hlazy.
  destruct (first_line message); [congruence|].
  split; reflexivity.
Qed.

(** A text of the denylist, trailing periods apart, is a lazy summary of the
    code unless it is made of periods only. *)
Lemma denylist_lazy (text : str) :
  in_denylist text = true -> strip_periods text <> [] ->
  str_in (strip_periods text) LAZY_SUMMARIES = true.
Proof.
  unfold in_denylist; intros H Hne.
  apply existsb_exists in H as (d & Hd & E).
  apply str_eqb_eq in E; rewrite E in *; clear E.
  simpl in Hd.
  repeat (destruct Hd as [<-|Hd]; [first [reflexivity | now elim Hne]|]).
  contradiction.
Qed.

End Validator.

(* ================================================================= *)
(** ** Properties of the validator *)

(** C1, as the specification has it, fails: a line of the shape
    [DSO-<digits>: <capital>] with nothing after the capital letter is of the
    specified shape and carries no lazy summary, and the validator rejects it
    with the pattern message, since [JIRA_PATTERN] ends in [.+] and asks for
    one more character. *)
Lemma single_capital_summary_rejected :
  spec_shape (first_line (lit "DSO-1: A"))
  /\ str_in (strip_periods (lazy_check_text caseless
                              (first_line (lit "DSO-1: A"))))
       LAZY_SUMMARIES = false
  /\ validate_commit_message caseless (lit "DSO-1: A")
     = Return (Some (pattern_message (lit "DSO-1: A")))
  /\ validate_commit_message caseless (lit "DSO-1: A") <> Return None.
Proof.
  split; [|split; [|split]].
  - exists (lit "1"), (ch "A"), [].
    repeat split; first [reflexivity | discriminate | simpl; lia].
  - reflexivity.
  - reflexivity.
  - discriminate.
Qed.

(** The same line is rejected under every case table. *)
Lemma single_capital_summary_any_table (tbl : case_table) :
  validate_commit_message tbl (lit "DSO-1: A")
  = Return (Some (pattern_message (lit "DSO-1: A"))).
Proof. reflexivity. Qed.

(** C1, amended: every message whose first line, after the whole message is
    trimmed, has the shape [DSO-<digits>: <capital><rest>] with a rest of one
    character or more (the pattern [^DSO-[0-9]+: [A-Z].+$]), and whose text
    after the colon and space, trimmed, lowercased and without trailing
    periods, is no lazy summary, is valid: the validator returns [None]. *)
Theorem validate_accepts_ticket_lines (tbl : case_table) (message : str) :
  jira_shape (first_line message) ->
  str_in (strip_periods (lazy_check_text tbl (first_line message)))
    LAZY_SUMMARIES = false ->
  validate_commit_message tbl message = Return None.
Proof.
  intros Hshape Hlazy.
  rewrite validate_cases, Hlazy.
  rewrite (jira_shape_matches (first_line message)).
  - destruct Hshape as (digits & c & rest & E & _); rewrite E; reflexivity.
  - apply no_break_no_line_feed, first_line_no_break.
  - exact Hshape.
Qed.

Lemma validate_accepts_ticket_lines_witness :
  validate_commit_message caseless
    ([ch "009"] ++ lit "DSO-42: Implement rate limiter" ++ [LF]
       ++ lit "with a body") = Return None.
Proof.
  apply validate_accepts_ticket_lines.
  - exists (lit "42"), (ch "I"), (lit "mplement rate limiter").
    repeat split; first [reflexivity | discriminate | simpl; lia].
  - reflexivity.
Defined.

(** X8: a message is valid exactly when the first line of the trimmed
    message has the shape [DSO-<digits>: <capital><rest>], with a rest of one
    character or more, and its summary is no lazy summary; so the amendment
    of C1 is the most that holds. *)
Lemma validate_valid_iff (tbl : case_table) (message : str) :
  validate_commit_message tbl message = Return None <->
  jira_shape (first_line message)
  /\ str_in (strip_periods (lazy_check_text tbl (first_line message)))
       LAZY_SUMMARIES = false.
Proof.
  rewrite validate_cases; split.
  2:{ intros [Hshape ->].
      rewrite (jira_shape_matches (first_line message));
        [| apply no_break_no_line_feed, first_line_no_break | exact Hshape].
      destruct Hshape as (digits & c & rest & E & _); rewrite E.
      reflexivity. }
  intros H.
  destruct (first_line message) as [|c line] eqn:E; [discriminate|].
  rewrite <- E in *.
  destruct (str_in _ LAZY_SUMMARIES); [discriminate|].
  destruct (re_match JIRA_PATTERN (first_line message)) eqn:M;
    [|discriminate].
  split; [|reflexivity].
  apply jira_match_shape; [|exact M].
  apply no_break_no_line_feed, first_line_no_break.
Qed.

(** C2 at the summary ["..."]: the text after the colon and space is an
    entry of the denylist, and of [LAZY_SUMMARIES] as well, yet the validator
    strips its periods before it looks the text up, finds the empty string in
    no entry, and rejects the line for its pattern, with a reason that does
    not mention "Lazy". *)
Theorem ellipsis_summary_not_lazy (tbl : case_table) :
  In (lazy_check_text tbl (first_line (lit "DSO-1: ..."))) denylist
  /\ in_denylist (lazy_check_text tbl (first_line (lit "DSO-1: ..."))) = true
  /\ In (lazy_check_text tbl (first_line (lit "DSO-1: ..."))) LAZY_SUMMARIES
  /\ validate_commit_message tbl (lit "DSO-1: ...")
     = Return (Some (pattern_message (lit "DSO-1: ...")))
  /\ contains (lit "Lazy") (pattern_message (lit "DSO-1: ...")) = false.
Proof.
  repeat split; try reflexivity.
  - right; right; right; left; reflexivity.
  - do 4 right; left; reflexivity.
Qed.

(** X10: apart from summaries made of periods only, a first line whose
    lazy-check text is in the denylist, trailing periods apart, is rejected
    with a reason that mentions "Lazy", whatever its shape (what holds of
    C2). *)
Lemma validate_denylisted (tbl : case_table) (message : str) :
  first_line message <> [] ->
  in_denylist (lazy_check_text tbl (first_line message)) = true ->
  strip_periods (lazy_check_text tbl (first_line message)) <> [] ->
  validate_commit_message tbl message
  = Return (Some (lazy_message (first_line message)))
  /\ mentions "Lazy" (lazy_message (first_line message)).
Proof.
  intros Hne Hin Hp; apply validate_lazy; [exact Hne|].
  apply denylist_lazy; assumption.
Qed.

(** C5: the empty string and every string of whitespace only (line feeds
    included) is rejected with the reason of the empty message, which
    mentions "empty" and is not the reason of a pattern mismatch. *)
Theorem validate_blank_message (tbl : case_table) (message : str) :
  blank message ->
  validate_commit_message tbl message = Return (Some empty_message)
  /\ mentions "empty" empty_message
  /\ empty_message <> pattern_message (first_line message).
Proof.
  intros H; rewrite validate_cases.
  unfold first_line; rewrite (strip_blank _ H).
  repeat split; discriminate.
Qed.

Lemma validate_blank_message_witness :
  validate_commit_message caseless [] = Return (Some empty_message)
  /\ validate_commit_message caseless (lit "   " ++ [LF; LF] ++ lit "  ")
     = Return (Some empty_message)
  /\ validate_commit_message caseless [LF] = Return (Some empty_message).
Proof.
  split; [|split].
  - apply (validate_blank_message caseless []); reflexivity.
  - apply (validate_blank_message caseless (lit "   " ++ [LF; LF] ++ lit "  "));
      reflexivity.
  - apply (validate_blank_message caseless [LF]); reflexivity.
Defined.

(** The validator only sees the first line of the trimmed message. *)
Lemma validate_same_first_line (tbl : case_table) (s1 s2 : str) :
  first_line s1 = first_line s2 ->
  validate_commit_message tbl s1 = validate_commit_message tbl s2.
Proof. intros E; rewrite !validate_cases, E; reflexivity. Qed.

(** A trimmed line, a line boundary and any text after it: the first line
    is that line. *)
Lemma first_line_with_body (line : str) (b : N) (body : str) :
  line <> [] -> strip line = line ->
  forallb (fun c => negb (is_linebreak c)) line = true ->
  is_linebreak b = true ->
  first_line (line ++ b :: body) = line.
Proof.
  intros Hne Hstrip Hline Hb; unfold first_line.
  rewrite (strip_app_keeps _ _ Hne Hstrip).
  apply take_while_app; [exact Hline|].
  destruct (rstrip_prefix (b :: body)) as [t E].
  destruct (rstrip (b :: body)) as [|c u]; [exact I|].
  simpl in E; inversion E; subst c; rewrite Hb; reflexivity.
Qed.

Lemma first_line_alone (line : str) :
  strip line = line ->
  forallb (fun c => negb (is_linebreak c)) line = true ->
  first_line line = line.
Proof.
  intros Hstrip Hline; unfold first_line; rewrite Hstrip.
  rewrite <- (app_nil_r line) at 1; apply take_while_app; [exact Hline | exact I].
Qed.

(** A string that ends in a character that is no whitespace keeps that end
    under [rstrip]. *)
Lemma rstrip_keeps_last (s : str) (c : N) :
  isspace c = false -> rstrip (s ++ [c]) = s ++ [c].
Proof.
  intros H; unfold rstrip.
  rewrite rev_app_distr; cbn [rev app drop_while]; rewrite H.
  cbn [rev]; rewrite rev_involutive; reflexivity.
Qed.

(** A line that ends in a character that is no whitespace, a line boundary
    and any text after it: the first line is that of the line alone. *)
Lemma first_line_solid_end (line : str) (c b : N) (body : str) :
  isspace c = false ->
  forallb (fun x => negb (is_linebreak x)) (line ++ [c]) = true ->
  is_linebreak b = true ->
  first_line ((line ++ [c]) ++ b :: body) = first_line (line ++ [c]).
Proof.
  intros Hc Hline Hb.
  set (l := line ++ [c]) in *.
  set (w := take_while isspace l).
  set (t := lstrip l).
  assert (Hl : l = w ++ t) by apply take_drop_while.
  assert (Hw : blank w) by apply take_while_all.
  assert (Hend : exists y, t = y ++ [c]).
  { unfold t, lstrip, l; rewrite drop_while_app.
    destruct (drop_while isspace line) as [|d u].
    - exists []; cbn [drop_while]; rewrite Hc; reflexivity.
    - exists (d :: u); reflexivity. }
  destruct Hend as [y Hy].
  assert (Hne : t <> []) by (rewrite Hy; destruct y; discriminate).
  assert (Hstrip : strip t = t).
  { unfold strip.
    assert (E : lstrip t = t).
    { destruct t as [|d u] eqn:Et; [reflexivity|].
      unfold lstrip; cbn [drop_while].
      rewrite (drop_while_head isspace l d u Et); reflexivity. }
    rewrite E, Hy; apply rstrip_keeps_last; exact Hc. }
  assert (Ht : forallb (fun x => negb (is_linebreak x)) t = true)
    by (apply forallb_drop_while; exact Hline).
  assert (E1 : first_line (l ++ b :: body) = t).
  { unfold first_line.
    replace (l ++ b :: body) with (w ++ (t ++ b :: body) ++ [])
      by (rewrite Hl, app_nil_r, <- app_assoc; reflexivity).
    rewrite (strip_padding w _ [] Hw eq_refl).
    apply (first_line_with_body t b body); assumption. }
  assert (E2 : first_line l = t).
  { unfold first_line.
    replace l with (w ++ t ++ []) at 1
      by (rewrite app_nil_r; symmetry; exact Hl).
    rewrite (strip_padding w t [] Hw eq_refl).
    apply (first_line_alone t); assumption. }
  rewrite E1, E2; reflexivity.
Qed.

(** C6, as the specification has it, fails for the lines after the first.
    Two messages with the same first line ["DSO-1: A "], which ends in a
    space, differ only in what follows it: with a body the line is judged as
    it stands and is valid; without one the trim of the whole message takes
    the space away, and ["DSO-1: A"] does not match the pattern. *)
Lemma body_decides_trailing_space :
  item_first (splitlines (lit "DSO-1: A " ++ [LF] ++ lit "body"))
  = Return (lit "DSO-1: A ")
  /\ item_first (splitlines (lit "DSO-1: A " ++ [LF]))
     = Return (lit "DSO-1: A ")
  /\ validate_commit_message caseless (lit "DSO-1: A " ++ [LF] ++ lit "body")
     = Return None
  /\ validate_commit_message caseless (lit "DSO-1: A " ++ [LF])
     = Return (Some (pattern_message (lit "DSO-1: A")))
  /\ validate_commit_message caseless (lit "DSO-1: A " ++ [LF] ++ lit "body")
     <> validate_commit_message caseless (lit "DSO-1: A " ++ [LF]).
Proof. repeat split; discriminate. Qed.

(** C6, amended: the validator depends on the first line of the trimmed
    message only.  Two messages that are both empty once trimmed, or both
    non-empty with the same first line, get the same result; so whitespace
    (tabs included) around the whole message changes nothing, and what
    follows the first line changes nothing when that line ends in a
    character that is no whitespace. *)
Theorem validate_first_line_only (tbl : case_table) :
  (forall s1 s2 : str,
      (strip s1 = [] /\ strip s2 = [])
      \/ (strip s1 <> [] /\ strip s2 <> [] /\ first_line s1 = first_line s2) ->
      validate_commit_message tbl s1 = validate_commit_message tbl s2)
  /\ (forall w1 s w2 : str,
         blank w1 -> blank w2 ->
         validate_commit_message tbl (w1 ++ s ++ w2)
         = validate_commit_message tbl s)
  /\ (forall (line : str) (c b : N) (body : str),
         isspace c = false ->
         forallb (fun x => negb (is_linebreak x)) (line ++ [c]) = true ->
         is_linebreak b = true ->
         validate_commit_message tbl ((line ++ [c]) ++ b :: body)
         = validate_commit_message tbl (line ++ [c])).
Proof.
  split; [|split].
  - intros s1 s2 [[E1 E2]|(_ & _ & E)]; apply validate_same_first_line.
    + unfold first_line; rewrite E1, E2; reflexivity.
    + exact E.
  - intros w1 s w2 H1 H2; apply validate_same_first_line.
    unfold first_line; rewrite strip_padding by assumption; reflexivity.
  - intros line c b body Hc Hline Hb; apply validate_same_first_line.
    apply first_line_solid_end; assumption.
Qed.

Lemma validate_first_line_only_witness :
  validate_commit_message caseless (lit "  " ++ [LF]) 
  = validate_commit_message caseless []
  /\ validate_commit_message caseless
       ([ch "009"] ++ lit "DSO-42: Indented with tab" ++ [LF])
     = validate_commit_message caseless (lit "DSO-42: Indented with tab")
  /\ validate_commit_message caseless
       ((lit "  DSO-42: Valid first lin" ++ [ch "e"])
          ++ LF :: LF :: lit "The body.")
     = validate_commit_message caseless
         (lit "  DSO-42: Valid first lin" ++ [ch "e"]).
Proof.
  destruct (validate_first_line_only caseless) as (Hsame & Hpad & Hbody).
  split; [|split].
  - apply Hsame; left; split; reflexivity.
  - apply (Hpad [ch "009"] (lit "DSO-42: Indented with tab") [LF]);
      reflexivity.
  - apply (Hbody (lit "  DSO-42: Valid first lin") (ch "e") LF
             (LF :: lit "The body."));
      reflexivity.
Defined.

(** The scenarios of the specification and of the test suite, under every
    case table. *)
Example validator_scenarios (tbl : case_table) :
  validate_commit_message tbl (lit "DSO-42: Implement rate limiter")
  = Return None
  /\ validate_commit_message tbl (lit "DSO-1: fix")
     = Return (Some (lazy_message (lit "DSO-1: fix")))
  /\ validate_commit_message tbl (lit "DSO-1: Fix.")
     = Return (Some (lazy_message (lit "DSO-1: Fix.")))
  /\ validate_commit_message tbl (lit "DSO-42:Missing space")
     = Return (Some (pattern_message (lit "DSO-42:Missing space")))
  /\ validate_commit_message tbl (lit "DSO-42: implement rate limiter")
     = Return (Some (pattern_message (lit "DSO-42: implement rate limiter")))
  /\ validate_commit_message tbl
       ([ch "009"] ++ lit "DSO-42: Indented with tab" ++ [LF])
     = Return None
  /\ validate_commit_message tbl
       (lit "DSO-42: Valid first line" ++ [LF; LF] ++ lit "The body.")
     = Return None
  /\ validate_commit_message tbl [] = Return (Some empty_message).
Proof. repeat split. Qed.

(** C8: ["PROJ-42: Fix something"] is rejected for its pattern, not as a lazy
    summary, and the reason contains "DSO". *)
Theorem wrong_project_rejected (tbl : case_table) :
  validate_commit_message tbl (lit "PROJ-42: Fix something")
  = Return (Some (pattern_message (lit "PROJ-42: Fix something")))
  /\ mentions "DSO" (pattern_message (lit "PROJ-42: Fix something"))
  /\ str_in (strip_periods (lazy_check_text tbl (lit "PROJ-42: Fix something")))
       LAZY_SUMMARIES = false
  /\ re_match JIRA_PATTERN (lit "PROJ-42: Fix something") = false
  /\ contains (lit "Lazy") (pattern_message (lit "PROJ-42: Fix something"))
     = false.
Proof. repeat split; reflexivity. Qed.

Lemma lazy_message_nonempty (line : str) : lazy_message line <> [].
Proof. discriminate. Qed.

Lemma pattern_message_nonempty (line : str) : pattern_message line <> [].
Proof. discriminate. Qed.

(** C9: the validator returns on every string.  The index access is reached
    with a non-empty trimmed message only, whose list of lines is not empty,
    so it is in range; and the result is [None] or an error string that is
    not empty. *)
Theorem validate_total (tbl : case_table) (message : str) :
  (truthy (strip message) = true ->
   exists line, item_first (splitlines (strip message)) = Return line)
  /\ (exists line, first_line_of message = Return line)
  /\ exists r,
      validate_commit_message tbl message = Return r
      /\ match r with
         | None => True
         | Some error => error <> []
         end.
Proof.
  split; [|split].
  - intros H.
    destruct (splitlines (strip message)) as [|line rest] eqn:E.
    + apply splitlines_nonempty in E; [contradiction|].
      destruct (strip message); [discriminate H | discriminate].
    + exists line; reflexivity.
  - exists (first_line message); apply first_line_of_spec.
  - rewrite validate_cases; eexists; split; [reflexivity|].
    destruct (first_line message) as [|c line]; [discriminate|].
    destruct (str_in _ LAZY_SUMMARIES); [apply lazy_message_nonempty|].
    destruct (re_match _ _); [exact I | apply pattern_message_nonempty].
Qed.

Lemma validate_total_witness :
  exists line,
    item_first (splitlines (strip (lit " DSO-7: Add tests" ++ [CR; LF])))
    = Return line.
Proof.
  apply (proj1 (validate_total caseless
                  (lit " DSO-7: Add tests" ++ [CR; LF]))).
  reflexivity.
Defined.

(* ================================================================= *)
(** ** The entry point *)

Section EntryPoint.

Variable tbl : case_table.
Variable fs : filesystem.

(** With an argument after the program name, [main] looks at that argument
    and at nothing after it. *)
Lemma main_cases (prog arg : str) (extra : list str) :
  main tbl fs (prog :: arg :: extra) =
  match _safe_commit_msg_path fs arg with
  | Raise e => raised e
  | Return None => Run (print (refusal_message arg)) (Return 1%Z)
  | Return (Some path) =>
      match read_text fs path with
      | Raise e => raised e
      | Return message =>
          match validate_commit_message tbl message with
          | Raise e => raised e
          | Return (Some error) =>
              Run (print (failure_message error)) (Return 1%Z)
          | Return None => Run [] (Return 0%Z)
          end
      end
  end.
Proof. reflexivity. Qed.

Lemma unlisted_no_path (arg : str) :
  str_in (basename arg) _ALLOWED_MSG_FILES = false ->
  _safe_commit_msg_path fs arg = Return None.
Proof. unfold _safe_commit_msg_path; intros ->; reflexivity. Qed.


End EntryPoint.


(** The refusal as it is printed: the argument as it was given, between two
    fixed texts. *)
Lemma print_refusal (arg : str) :
  print (refusal_message arg) = lit "Error: '" ++ arg ++ refusal_tail.
Proof.
  unfold print, refusal_message; rewrite <- !app_assoc; reflexivity.
Qed.

Lemma refusal_lists_allowed (arg name : str) :
  In name _ALLOWED_MSG_FILES ->
  contains name (print (refusal_message arg)) = true.
Proof.
  intros H; rewrite print_refusal; do 2 apply contains_skip.
  simpl in H.
  repeat (destruct H as [<-|H]; [reflexivity|]); contradiction.
Qed.

(** What the path check found, when it gave a path. *)
Lemma safe_path_some (fs : filesystem) (arg path : str) :
  _safe_commit_msg_path fs arg = Return (Some path) ->
  exists git_dir,
    resolve fs (lit ".git") = Return git_dir
    /\ path = path_join git_dir (basename arg)
    /\ str_in (basename arg) _ALLOWED_MSG_FILES = true
    /\ is_file fs path = Return true.
Proof.
  unfold _safe_commit_msg_path.
  destruct (str_in (basename arg) _ALLOWED_MSG_FILES); [|discriminate].
  cbn [negb].
  destruct (resolve fs (lit ".git")) as [git_dir|e]; [|discriminate].
  cbn [bind].
  destruct (is_file fs (path_join git_dir (basename arg))) as [[|]|e] eqn:F;
    cbn [bind negb]; try discriminate.
  intros E; injection E as <-; exists git_dir; auto.
Qed.

(* ================================================================= *)
(** ** Properties of the entry point *)

(** C3, as the specification has it, fails: the refusal echoes the argument
    as it was given, directories included.  Two arguments with the same
    basename, both refused, leave different texts on standard error, and the
    text for ["../../etc/passwd"] shows the directories of that path. *)
Lemma refusal_discloses_directories :
  basename (lit "a/passwd") = basename (lit "b/passwd")
  /\ _safe_commit_msg_path no_files (lit "a/passwd") = Return None
  /\ _safe_commit_msg_path no_files (lit "b/passwd") = Return None
  /\ stderr (main caseless no_files [lit "hook"; lit "a/passwd"])
     <> stderr (main caseless no_files [lit "hook"; lit "b/passwd"])
  /\ contains (lit "../../etc/")
       (stderr (main caseless no_files [lit "hook"; lit "../../etc/passwd"]))
     = true.
Proof. repeat split; discriminate. Qed.

(** C3, amended: when [main] refuses an argument as no recognized commit
    message file, the text on standard error is the refusal with the argument
    echoed as it was given, followed by the fixed list of allowed names; it
    depends on the argument alone, not on the file system nor on the other
    arguments, so two refused arguments leave the same text exactly when they
    are the same argument. *)
Theorem refusal_echoes_argument
  (tbl : case_table) (fs1 fs2 : filesystem)
  (prog1 prog2 arg1 arg2 : str) (extra1 extra2 : list str) :
  _safe_commit_msg_path fs1 arg1 = Return None ->
  _safe_commit_msg_path fs2 arg2 = Return None ->
  let err1 := stderr (main tbl fs1 (prog1 :: arg1 :: extra1)) in
  let err2 := stderr (main tbl fs2 (prog2 :: arg2 :: extra2)) in
  err1 = lit "Error: '" ++ arg1 ++ refusal_tail
  /\ err2 = lit "Error: '" ++ arg2 ++ refusal_tail
  /\ contains arg1 err1 = true
  /\ (err1 = err2 <-> arg1 = arg2).
Proof.
  intros H1 H2; cbv zeta; rewrite !main_cases, H1, H2; cbn [stderr].
  rewrite !print_refusal; repeat split.
  - apply contains_skip, contains_here.
  - intros E; apply app_inv_head in E; apply app_inv_tail in E; exact E.
  - intros ->; reflexivity.
Qed.

Lemma refusal_echoes_argument_witness :
  stderr (main caseless no_files [lit "hook"; lit "../../etc/passwd"])
  = lit "Error: '" ++ lit "../../etc/passwd" ++ refusal_tail.
Proof.
  apply (refusal_echoes_argument caseless no_files (one_message [])
           (lit "hook") (lit "hook") (lit "../../etc/passwd")
           (lit "sub/MERGE_MSG") [] []);
    reflexivity.
Defined.

(** C7: an argument whose basename is not one of the four allowed names is
    refused: [main] prints the refusal, which lists the allowed names, and
    returns 1.  For ["../../etc/passwd"] the name looked up is ["passwd"]. *)
Theorem main_refuses_unlisted_name
  (tbl : case_table) (fs : filesystem) (prog arg : str) (extra : list str) :
  str_in (basename arg) _ALLOWED_MSG_FILES = false ->
  main tbl fs (prog :: arg :: extra)
  = Run (print (refusal_message arg)) (Return 1%Z)
  /\ (forall name, In name _ALLOWED_MSG_FILES ->
                   contains name (stderr (main tbl fs (prog :: arg :: extra)))
                   = true)
  /\ _ALLOWED_MSG_FILES
     = [lit "COMMIT_EDITMSG"; lit "MERGE_MSG"; lit "SQUASH_MSG";
        lit "TAG_EDITMSG"].
Proof.
  intros H; rewrite main_cases, (unlisted_no_path fs arg H); cbn [stderr].
  repeat split; intros name Hin; apply refusal_lists_allowed; exact Hin.
Qed.

Lemma main_refuses_unlisted_name_witness :
  basename (lit "../../etc/passwd") = lit "passwd"
  /\ str_in (lit "passwd") _ALLOWED_MSG_FILES = false
  /\ main caseless (one_message (lit "DSO-1: Add a hook"))
       [lit "hook"; lit "../../etc/passwd"]
     = Run (print (refusal_message (lit "../../etc/passwd"))) (Return 1%Z).
Proof.
  split; [reflexivity | split; [reflexivity|]].
  apply (main_refuses_unlisted_name caseless
           (one_message (lit "DSO-1: Add a hook")) (lit "hook")
           (lit "../../etc/passwd") []).
  reflexivity.
Defined.

(** C10: the arguments after the first are ignored: the run is the run with
    the first argument alone, and what it prints is not the usage text. *)
Theorem main_ignores_extra_arguments
  (tbl : case_table) (fs : filesystem) (prog arg : str) (extra : list str) :
  main tbl fs (prog :: arg :: extra) = main tbl fs [prog; arg]
  /\ stderr (main tbl fs (prog :: arg :: extra)) <> print usage_message.
Proof.
  split; [rewrite !main_cases; reflexivity|].
  rewrite main_cases.
  destruct (_safe_commit_msg_path fs arg) as [[path|]|e]; [| |discriminate].
  - destruct (read_text fs path) as [message|e]; [|discriminate].
    destruct (validate_commit_message tbl message) as [[error|]|e];
      discriminate.
  - rewrite print_refusal; discriminate.
Qed.




(** The kinds of run, on a directory that holds one valid message. *)
Example main_runs :
  main caseless (one_message (lit "DSO-42: Implement rate limiter"))
    [lit "hook"; lit ".git/COMMIT_EDITMSG"]
  = Run [] (Return 0%Z)
  /\ main caseless (one_message (lit "DSO-42: Implement rate limiter"))
       [lit "hook"]
     = Run (print usage_message) (Return 1%Z)
  /\ main caseless (one_message (lit "wip")) [lit "hook"; lit "COMMIT_EDITMSG"]
     = Run (print (failure_message (lazy_message (lit "wip")))) (Return 1%Z)
  /\ main caseless (one_message (lit "DSO-42: Implement rate limiter"))
       [lit "hook"; lit "MERGE_MSG"]
     = Run (print (refusal_message (lit "MERGE_MSG"))) (Return 1%Z)
  /\ main caseless unreadable_files [lit "hook"; lit "MERGE_MSG"]
     = Run [] (Raise OSError).
Proof. repeat split. Qed.

(* ================================================================= *)
(** ** Further properties: the path of the commit message *)

Lemma has_slash_cons (c : N) (p : str) :
  has_slash (c :: p) = (c =? ch "/") || has_slash p.
Proof.
  unfold has_slash; cbn [existsb]; rewrite (N.eqb_sym (ch "/") c).
  reflexivity.
Qed.

Lemma basename_plain (p : str) : has_slash p = false -> basename p = p.
Proof.
  destruct p as [|c p]; [reflexivity|].
  rewrite has_slash_cons; intros H; apply orb_false_iff in H as [Hc Hp].
  cbn [basename]; fold (has_slash p); rewrite Hp, Hc; reflexivity.
Qed.

Lemma basename_has_no_slash (p : str) : has_slash (basename p) = false.
Proof.
  induction p as [|c p IH]; [reflexivity|].
  cbn [basename]; fold (has_slash p).
  destruct (has_slash p) eqn:Hp; [exact IH|].
  destruct (c =? ch "/") eqn:Hc; [exact Hp|].
  rewrite has_slash_cons, Hc, Hp; reflexivity.
Qed.

Lemma basename_under (dir name : str) :
  has_slash name = false -> basename (dir ++ ch "/" :: name) = name.
Proof.
  intros H; induction dir as [|d dir IH]; cbn [app basename].
  - fold (has_slash name); rewrite H, N.eqb_refl; reflexivity.
  - fold (has_slash (dir ++ ch "/" :: name)).
    replace (has_slash (dir ++ ch "/" :: name)) with true; [exact IH|].
    unfold has_slash; rewrite existsb_app; simpl.
    rewrite orb_true_r; reflexivity.
Qed.

Lemma basename_idempotent (p : str) : basename (basename p) = basename p.
Proof. apply basename_plain, basename_has_no_slash. Qed.

Lemma safe_path_of_name (fs : filesystem) (arg1 arg2 : str) :
  basename arg1 = basename arg2 ->
  _safe_commit_msg_path fs arg1 = _safe_commit_msg_path fs arg2.
Proof. unfold _safe_commit_msg_path; intros ->; reflexivity. Qed.

Lemma str_in_In (x : str) (xs : list str) : str_in x xs = true -> In x xs.
Proof.
  unfold str_in; rewrite existsb_exists.
  intros (y & Hy & E); apply str_eqb_eq in E; subst; exact Hy.
Qed.

(** X1: a path [_safe_commit_msg_path] returns is the resolved [.git]
    directory joined with one of the four allowed names, which is the
    basename of the argument and has no slash; the path names a regular
    file.  No directory of the argument is part of it. *)
Theorem safe_path_is_fixed (fs : filesystem) (arg path : str) :
  _safe_commit_msg_path fs arg = Return (Some path) ->
  exists git_dir name,
    resolve fs (lit ".git") = Return git_dir
    /\ path = path_join git_dir name
    /\ name = basename arg
    /\ In name [ lit "COMMIT_EDITMSG"; lit "MERGE_MSG"; lit "SQUASH_MSG";
                 lit "TAG_EDITMSG" ]
    /\ has_slash name = false
    /\ In path (safe_paths git_dir)
    /\ is_file fs path = Return true.
Proof.
  intros H; apply safe_path_some in H as (git_dir & Hdir & -> & Hin & Hfile).
  apply str_in_In in Hin.
  exists git_dir, (basename arg); repeat split; try assumption.
  - apply basename_has_no_slash.
  - apply in_map; exact Hin.
Qed.

Lemma safe_path_is_fixed_witness :
  exists git_dir name,
    resolve (one_message (lit "DSO-1: Add a hook")) (lit ".git")
    = Return git_dir
    /\ lit "/repo/.git/COMMIT_EDITMSG" = path_join git_dir name
    /\ name = basename (lit "/tmp/elsewhere/COMMIT_EDITMSG")
    /\ In name [ lit "COMMIT_EDITMSG"; lit "MERGE_MSG"; lit "SQUASH_MSG";
                 lit "TAG_EDITMSG" ]
    /\ has_slash name = false
    /\ In (lit "/repo/.git/COMMIT_EDITMSG") (safe_paths git_dir)
    /\ is_file (one_message (lit "DSO-1: Add a hook"))
         (lit "/repo/.git/COMMIT_EDITMSG") = Return true.
Proof.
  apply (safe_path_is_fixed (one_message (lit "DSO-1: Add a hook"))
           (lit "/tmp/elsewhere/COMMIT_EDITMSG")
           (lit "/repo/.git/COMMIT_EDITMSG")).
  reflexivity.
Defined.

(** X2: the directories of the argument play no part: the argument resolves
    as its basename does, so an allowed name under any directory resolves as
    the bare name, and two arguments with the same basename resolve alike. *)
Theorem safe_path_ignores_directories (fs : filesystem) :
  (forall arg,
      _safe_commit_msg_path fs arg = _safe_commit_msg_path fs (basename arg))
  /\ (forall dir name,
         has_slash name = false ->
         _safe_commit_msg_path fs (dir ++ ch "/" :: name)
         = _safe_commit_msg_path fs name)
  /\ (forall arg1 arg2,
         basename arg1 = basename arg2 ->
         _safe_commit_msg_path fs arg1 = _safe_commit_msg_path fs arg2).
Proof.
  split; [|split].
  - intros arg; apply safe_path_of_name; symmetry; apply basename_idempotent.
  - intros dir name H; apply safe_path_of_name.
    rewrite (basename_under dir name H), (basename_plain name H); reflexivity.
  - intros arg1 arg2; apply safe_path_of_name.
Qed.

Lemma safe_path_ignores_directories_witness :
  _safe_commit_msg_path (one_message [])
    (lit "../../etc" ++ ch "/" :: lit "COMMIT_EDITMSG")
  = _safe_commit_msg_path (one_message []) (lit "COMMIT_EDITMSG").
Proof.
  apply (proj1 (proj2 (safe_path_ignores_directories (one_message [])))).
  reflexivity.
Defined.

(* ================================================================= *)
(** ** Further properties: the runs of [main] *)

Lemma safe_path_agree (fs1 fs2 : filesystem) (arg : str) :
  agree_on_git fs1 fs2 ->
  _safe_commit_msg_path fs1 arg = _safe_commit_msg_path fs2 arg
  /\ forall path, _safe_commit_msg_path fs1 arg = Return (Some path) ->
                  read_text fs1 path = read_text fs2 path.
Proof.
  intros [Hdir Hagree].
  assert (Hsame : forall git_dir,
             resolve fs1 (lit ".git") = Return git_dir ->
             str_in (basename arg) _ALLOWED_MSG_FILES = true ->
             entry_at fs1 (path_join git_dir (basename arg))
             = entry_at fs2 (path_join git_dir (basename arg))).
  { intros git_dir Hg Hin; apply (Hagree git_dir _ Hg).
    apply in_map, str_in_In, Hin. }
  split.
  - unfold _safe_commit_msg_path, is_file; rewrite <- Hdir.
    destruct (str_in (basename arg) _ALLOWED_MSG_FILES); [|reflexivity].
    cbn [negb].
    destruct (resolve fs1 (lit ".git")) as [git_dir|e]; [|reflexivity].
    cbn [bind]; rewrite (Hsame git_dir eq_refl eq_refl); reflexivity.
  - intros path H.
    apply safe_path_some in H as (git_dir & Hg & -> & Hin & _).
    unfold read_text; rewrite (Hsame git_dir Hg Hin); reflexivity.
Qed.

(** X3: [main] looks at no file but the four commit message files of
    [.git]: on two file systems that resolve [.git] alike and hold the same
    at those four paths, the run is the same, whatever the arguments. *)
Theorem main_reads_git_only
  (tbl : case_table) (fs1 fs2 : filesystem) (argv : list str) :
  agree_on_git fs1 fs2 ->
  main tbl fs1 argv = main tbl fs2 argv.
Proof.
  intros Hagree.
  destruct argv as [|prog [|arg extra]]; [reflexivity | reflexivity |].
  rewrite !main_cases.
  destruct (safe_path_agree fs1 fs2 arg Hagree) as [Hpath Hread].
  rewrite <- Hpath.
  destruct (_safe_commit_msg_path fs1 arg) as [[path|]|e]; try reflexivity.
  rewrite <- (Hread path eq_refl); reflexivity.
Qed.

Lemma main_reads_git_only_witness :
  main caseless (one_message (lit "wip")) [lit "hook"; lit "/etc/passwd"]
  = main caseless
      (FileSystem under_repo
         (fun p => if str_eqb p (lit "/etc/passwd")
                   then RegularFile (Return (lit "root:x:0:0"))
                   else entry_at (one_message (lit "wip")) p))
      [lit "hook"; lit "/etc/passwd"].
Proof.
  apply main_reads_git_only.
  split; [reflexivity|].
  intros git_dir p Hdir Hp; injection Hdir as <-; simpl in Hp.
  repeat (destruct Hp as [<-|Hp]; [reflexivity|]); contradiction.
Defined.

(** When the path check ends in an exception: the name is allowed, and
    either [.git] does not resolve or [is_file] fails on the path. *)
Lemma safe_path_raises (fs : filesystem) (arg : str) (e : exn) :
  _safe_commit_msg_path fs arg = Raise e <->
  str_in (basename arg) _ALLOWED_MSG_FILES = true
  /\ (resolve fs (lit ".git") = Raise e
      \/ exists git_dir,
          resolve fs (lit ".git") = Return git_dir
          /\ is_file fs (path_join git_dir (basename arg)) = Raise e).
Proof.
  unfold _safe_commit_msg_path.
  destruct (str_in (basename arg) _ALLOWED_MSG_FILES); cbn [negb].
  2: split; [discriminate | intros [H _]; discriminate H].
  destruct (resolve fs (lit ".git")) as [git_dir|e0]; cbn [bind].
  - destruct (is_file fs (path_join git_dir (basename arg))) as [[|]|e1] eqn:F;
      cbn [bind negb].
    1,2: split; [discriminate|];
         intros (_ & [H|(g & Hg & H)]); [discriminate H|];
         injection Hg as <-; rewrite F in H; discriminate H.
    split.
    + intros E; injection E as <-; split; [reflexivity|].
      right; exists git_dir; auto.
    + intros (_ & [H|(g & Hg & H)]); [discriminate H|].
      injection Hg as <-; rewrite F in H; injection H as <-; reflexivity.
  - split.
    + intros E; injection E as <-; auto.
    + intros (_ & [H|(g & Hg & _)]); [|discriminate Hg].
      injection H as <-; reflexivity.
Qed.



(** X5: two arguments with the same basename end alike: the same status or
    the same exception; and when the name resolves to a file the two runs
    are the same run, text on standard error included. *)
Theorem main_same_basename
  (tbl : case_table) (fs : filesystem)
  (prog1 prog2 arg1 arg2 : str) (extra1 extra2 : list str) :
  basename arg1 = basename arg2 ->
  outcome (main tbl fs (prog1 :: arg1 :: extra1))
  = outcome (main tbl fs (prog2 :: arg2 :: extra2))
  /\ (_safe_commit_msg_path fs arg1 <> Return None ->
      main tbl fs (prog1 :: arg1 :: extra1)
      = main tbl fs (prog2 :: arg2 :: extra2)).
Proof.
  intros E; rewrite !main_cases, <- (safe_path_of_name fs arg1 arg2 E).
  destruct (_safe_commit_msg_path fs arg1) as [[path|]|e].
  - split; reflexivity.
  - split; [reflexivity | congruence].
  - split; reflexivity.
Qed.

Lemma main_same_basename_witness :
  main caseless (one_message (lit "DSO-3: Fix the parser"))
    [lit "hook"; lit ".git/COMMIT_EDITMSG"]
  = main caseless (one_message (lit "DSO-3: Fix the parser"))
      [lit "other"; lit "/tmp/x/COMMIT_EDITMSG"; lit "more"].
Proof.
  apply main_same_basename; [reflexivity | discriminate].
Defined.

(** X6: the usage text is printed exactly when [sys.argv] has fewer than two
    entries, and then the status is 1. *)
Theorem usage_iff_no_argument
  (tbl : case_table) (fs : filesystem) (argv : list str) :
  (stderr (main tbl fs argv) = print usage_message
   <-> (List.length argv < 2)%nat)
  /\ ((List.length argv < 2)%nat ->
      main tbl fs argv = Run (print usage_message) (Return 1%Z)).
Proof.
  destruct argv as [|prog [|arg extra]].
  1,2: split; [split; [simpl; lia | reflexivity] | reflexivity].
  split; [|simpl; lia].
  split; [|simpl; lia].
  rewrite main_cases.
  destruct (_safe_commit_msg_path fs arg) as [[path|]|e]; [| |discriminate].
  - destruct (read_text fs path) as [message|e]; [|discriminate].
    destruct (validate_commit_message tbl message) as [[error|]|e];
      discriminate.
  - rewrite print_refusal; discriminate.
Qed.

Lemma usage_iff_no_argument_witness :
  main caseless no_files [lit "hook"]
  = Run (print usage_message) (Return 1%Z).
Proof.
  apply (proj2 (usage_iff_no_argument caseless no_files [lit "hook"])).
  simpl; lia.
Defined.

(** X7: with an argument, [main] prints the refusal and returns 1 exactly
    when the basename of the argument is none of the allowed names or
    [is_file] answers that the file of that name in the resolved [.git] is no
    regular file (missing, or a directory). *)
Theorem refusal_iff_no_file
  (tbl : case_table) (fs : filesystem) (prog arg : str) (extra : list str) :
  main tbl fs (prog :: arg :: extra)
  = Run (print (refusal_message arg)) (Return 1%Z)
  <-> str_in (basename arg) _ALLOWED_MSG_FILES = false
      \/ exists git_dir,
          resolve fs (lit ".git") = Return git_dir
          /\ is_file fs (path_join git_dir (basename arg)) = Return false.
Proof.
  rewrite main_cases.
  destruct (_safe_commit_msg_path fs arg) as [[path|]|e] eqn:Hpath.
  - apply safe_path_some in Hpath as (git_dir & Hdir & -> & Hin & Hfile).
    split.
    + destruct (read_text fs _) as [message|e]; [|discriminate].
      destruct (validate_commit_message tbl message) as [[error|]|e];
        [|discriminate..].
      rewrite print_refusal; discriminate.
    + intros [H|(g & Hg & H)]; [congruence|].
      rewrite Hdir in Hg; injection Hg as <-; congruence.
  - split; [|reflexivity]; intros _.
    unfold _safe_commit_msg_path in Hpath.
    destruct (str_in (basename arg) _ALLOWED_MSG_FILES); [|left; reflexivity].
    cbn [negb] in Hpath.
    destruct (resolve fs (lit ".git")) as [git_dir|e]; [|discriminate Hpath].
    cbn [bind] in Hpath.
    destruct (is_file fs (path_join git_dir (basename arg))) as [[|]|e] eqn:F;
      cbn [bind negb] in Hpath; try discriminate Hpath.
    right; exists git_dir; split; [reflexivity | exact F].
  - split; [discriminate|].
    apply safe_path_raises in Hpath as (Hin & Hraise).
    intros [H|(g & Hg & H)]; [congruence|].
    destruct Hraise as [Hr|(g' & Hg' & Hr)]; [congruence|].
    rewrite Hg in Hg'; injection Hg' as <-; congruence.
Qed.

Lemma refusal_iff_no_file_witness :
  main caseless only_directories [lit "hook"; lit "TAG_EDITMSG"]
  = Run (print (refusal_message (lit "TAG_EDITMSG"))) (Return 1%Z).
Proof.
  apply (proj2 (refusal_iff_no_file caseless only_directories
                  (lit "hook") (lit "TAG_EDITMSG") [])).
  right; exists (lit "/repo/.git"); split; reflexivity.
Defined.

(* ================================================================= *)
(** ** Further properties: the validator *)

Lemma validate_valid_iff_witness :
  jira_shape (first_line (lit "DSO-10: Add SHA-256 hashing (v2)")).
Proof.
  apply (proj1 (validate_valid_iff caseless
                  (lit "DSO-10: Add SHA-256 hashing (v2)"))).
  reflexivity.
Defined.

(** X9: on a line without line feed, [JIRA_PATTERN] matches exactly the
    lines [DSO-<digits>: <capital><rest>] with one digit or more and a rest
    of one character or more: the matcher and the shape agree. *)
Theorem jira_pattern_shape (line : str) :
  no_line_feed line = true ->
  (re_match JIRA_PATTERN line = true <-> jira_shape line).
Proof.
  intros H; split;
    [apply jira_match_shape | apply jira_shape_matches]; exact H.
Qed.

Lemma jira_pattern_shape_witness :
  jira_shape (lit "DSO-99999: Large ticket number").
Proof.
  apply (proj1 (jira_pattern_shape (lit "DSO-99999: Large ticket number")
                  eq_refl)).
  reflexivity.
Defined.

Lemma validate_denylisted_witness :
  validate_commit_message caseless (lit "note: WIP..." ++ [LF] ++ lit "body")
  = Return (Some (lazy_message (lit "note: WIP..."))).
Proof.
  apply (validate_denylisted caseless
           (lit "note: WIP..." ++ [LF] ++ lit "body"));
    first [reflexivity | discriminate].
Defined.

Lemma strip_periods_no_period (text t : str) :
  strip_periods text <> t ++ [ch "."].
Proof.
  unfold strip_periods, rstrip_chars; intros E.
  apply (f_equal (@rev N)) in E; rewrite rev_involutive, rev_app_distr in E.
  apply drop_while_head in E; discriminate E.
Qed.

(** X11: the summary looked up in [LAZY_SUMMARIES] never ends in a period.
    So the entries ["fix."] and ["..."] are never found, and the lookup is
    the lookup among the eight other entries. *)
Theorem summary_never_ends_in_period (tbl : case_table) (line : str) :
  exists summary,
    summary_part_of tbl line = Return summary
    /\ (forall t, summary <> t ++ [ch "."])
    /\ summary <> lit "fix." /\ summary <> lit "..."
    /\ str_in summary LAZY_SUMMARIES = str_in summary live_summaries.
Proof.
  exists (strip_periods (lazy_check_text tbl line)).
  split; [apply summary_part_of_spec|].
  set (summary := strip_periods (lazy_check_text tbl line)).
  assert (Hno : forall t, summary <> t ++ [ch "."])
    by (intros t; apply strip_periods_no_period).
  assert (H1 : summary <> lit "fix.") by (apply (Hno (lit "fix"))).
  assert (H2 : summary <> lit "...") by (apply (Hno (lit ".."))).
  repeat split; try assumption.
  assert (E1 : str_eqb summary (lit "fix.") = false)
    by (destruct (str_eqb summary (lit "fix.")) eqn:E; [|reflexivity];
        apply str_eqb_eq in E; contradiction).
  assert (E2 : str_eqb summary (lit "...") = false)
    by (destruct (str_eqb summary (lit "...")) eqn:E; [|reflexivity];
        apply str_eqb_eq in E; contradiction).
  unfold str_in, LAZY_SUMMARIES, live_summaries; cbn [existsb].
  rewrite E1, E2; reflexivity.
Qed.

Lemma lazy_message_parts (line : str) :
  lazy_message line
  = lit "Lazy commit summary rejected: " ++ quoted line ++ lazy_advice.
Proof.
  unfold lazy_message, quoted, lazy_advice; rewrite <- !app_assoc.
  reflexivity.
Qed.

Lemma pattern_message_parts (line : str) :
  pattern_message line
  = lit "Commit rejected: " ++ quoted line ++ pattern_advice.
Proof.
  unfold pattern_message, quoted, pattern_advice; rewrite <- !app_assoc.
  reflexivity.
Qed.

(** X12: every reason but that of the empty message quotes the first line of
    the trimmed message between single quotes; and the reason of a pattern
    mismatch goes on with the required format and the example. *)
Theorem reasons_quote_first_line
  (tbl : case_table) (message reason : str) :
  validate_commit_message tbl message = Return (Some reason) ->
  first_line message <> [] ->
  contains (quoted (first_line message)) reason = true
  /\ (reason = pattern_message (first_line message) ->
      mentions "Required format: DSO-<number>: <Capitalized summary>" reason
      /\ mentions "Example:         DSO-42: Implement rate limiter" reason).
Proof.
  rewrite validate_cases; intros H Hne.
  destruct (first_line message) as [|c line] eqn:E; [congruence|].
  rewrite <- E in *.
  split.
  - destruct (str_in _ LAZY_SUMMARIES).
    + inversion H; rewrite lazy_message_parts.
      apply contains_skip, contains_here.
    + destruct (re_match _ _); [discriminate H|].
      inversion H; rewrite pattern_message_parts.
      apply contains_skip, contains_here.
  - intros ->; unfold mentions; rewrite pattern_message_parts.
    split; do 2 apply contains_skip; reflexivity.
Qed.

Lemma reasons_quote_first_line_witness :
  contains (quoted (lit "dso-42: Lowercase prefix"))
    (pattern_message (lit "dso-42: Lowercase prefix")) = true.
Proof.
  apply (reasons_quote_first_line caseless
           (lit "  dso-42: Lowercase prefix" ++ [LF] ++ lit "body")
           (pattern_message (lit "dso-42: Lowercase prefix")));
    first [reflexivity | discriminate].
Defined.

Lemma drop_while_nil_all (p : N -> bool) (s : str) :
  drop_while p s = [] -> forallb p s = true.
Proof.
  induction s as [|c s IH]; simpl; [reflexivity|].
  destruct (p c); simpl; [exact IH | discriminate].
Qed.

Lemma strip_nil_blank (s : str) : strip s = [] -> blank s.
Proof.
  unfold strip, rstrip, blank; intros H.
  apply (f_equal (@rev N)) in H; rewrite rev_involutive in H; simpl in H.
  apply drop_while_nil_all in H; rewrite forallb_rev in H.
  apply drop_while_nil_all.
  destruct (lstrip s) as [|c t] eqn:E; [exact E|].
  apply drop_while_head in E; simpl in H; rewrite E in H; discriminate H.
Qed.

Lemma lazy_not_empty_message (line : str) : lazy_message line <> empty_message.
Proof. discriminate. Qed.

Lemma pattern_not_empty_message (line : str) :
  pattern_message line <> empty_message.
Proof.
  intros H; apply (f_equal (fun s => nth 7 s 0)) in H.
  vm_compute in H; discriminate H.
Qed.

(** X13: the reason of the empty message is given to the whitespace-only
    messages and to no other: a message with one character that is no
    whitespace is judged on its first line. *)
Theorem empty_reason_iff_blank (tbl : case_table) (message : str) :
  validate_commit_message tbl message = Return (Some empty_message)
  <-> blank message.
Proof.
  rewrite validate_cases; split.
  - destruct (first_line message) as [|c line] eqn:E.
    + intros _; apply strip_nil_blank, first_line_empty, E.
    + destruct (str_in _ LAZY_SUMMARIES).
      * intros H.
        assert (H1 : lazy_message (c :: line) = empty_message)
          by exact (f_equal (fun r => match r with
                                     | Return (Some x) => x
                                     | _ => []
                                     end) H).
        elim (lazy_not_empty_message _ H1).
      * destruct (re_match _ _); [discriminate|].
        intros H.
        assert (H1 : pattern_message (c :: line) = empty_message)
          by exact (f_equal (fun r => match r with
                                     | Return (Some x) => x
                                     | _ => []
                                     end) H).
        elim (pattern_not_empty_message _ H1).
  - intros H; unfold first_line; rewrite (strip_blank _ H); reflexivity.
Qed.

Lemma empty_reason_iff_blank_witness :
  blank (lit " " ++ [ch "009"; CR; LF; 0x2028; 0x3000]).
Proof.
  apply (proj1 (empty_reason_iff_blank caseless
                  (lit " " ++ [ch "009"; CR; LF; 0x2028; 0x3000]))).
  reflexivity.
Defined.

(* ----------------------------------------------------------------- *)
(** *** ASCII messages *)

Lemma lower_from_ascii (tbl : case_table) (s : str) :
  ascii_only s = true ->
  forall before, lower_from tbl before s = map ascii_lower s.
Proof.
  induction s as [|c s IH]; intros H before; [reflexivity|].
  simpl in H; apply andb_true_iff in H as [Hc Hs].
  cbn [lower_from map]; rewrite Hc, IH by exact Hs; reflexivity.
Qed.

Lemma lower_ascii (tbl : case_table) (s : str) :
  ascii_only s = true -> lower tbl s = map ascii_lower s.
Proof. intros H; apply lower_from_ascii; exact H. Qed.

Lemma forallb_take_while (q p : N -> bool) (s : str) :
  forallb q s = true -> forallb q (take_while p s) = true.
Proof.
  induction s as [|c s IH]; simpl; [reflexivity|].
  intros H; apply andb_true_iff in H as [Hc H].
  destruct (p c); simpl; [rewrite Hc; exact (IH H) | reflexivity].
Qed.

Lemma forallb_strip (q : N -> bool) (s : str) :
  forallb q s = true -> forallb q (strip s) = true.
Proof.
  intros H; unfold strip, rstrip, lstrip.
  rewrite forallb_rev; apply forallb_drop_while.
  rewrite forallb_rev; apply forallb_drop_while; exact H.
Qed.

Lemma forallb_skipn (q : N -> bool) (n : nat) (s : str) :
  forallb q s = true -> forallb q (skipn n s) = true.
Proof.
  revert s; induction n as [|n IH]; intros [|c s]; simpl; auto.
  intros H; apply andb_true_iff in H as [_ H]; exact (IH s H).
Qed.

Lemma forallb_text_after_colon (q : N -> bool) (line : str) :
  forallb q line = true -> forallb q (text_after_colon line) = true.
Proof.
  unfold text_after_colon.
  assert (G : forall s before after,
             forallb q s = true ->
             partition_at (lit ": ") s = Some (before, after) ->
             forallb q after = true).
  { induction s as [|c s IH]; intros before after Hs.
    - simpl; discriminate.
    - cbn [partition_at].
      destruct (starts_with (lit ": ") (c :: s)).
      + intros E.
        replace after with (skipn (List.length (lit ": ")) (c :: s))
          by congruence.
        apply forallb_skipn; exact Hs.
      + destruct (partition_at (lit ": ") s) as [[b a]|] eqn:P;
          [|discriminate].
        intros E; inversion E; subst.
        simpl in Hs; apply andb_true_iff in Hs as [_ Hs].
        exact (IH b after Hs eq_refl). }
  intros H; destruct (partition_at (lit ": ") line) as [[b a]|] eqn:P.
  - exact (G line b a H P).
  - exact H.
Qed.

(** X15: on a message of ASCII characters the validator does not consult
    the case table: its result is the same under every table. *)
Theorem validate_ascii_any_table (tbl1 tbl2 : case_table) (message : str) :
  ascii_only message = true ->
  validate_commit_message tbl1 message = validate_commit_message tbl2 message.
Proof.
  intros H; rewrite !validate_cases.
  assert (E : lazy_check_text tbl1 (first_line message)
              = lazy_check_text tbl2 (first_line message)).
  { unfold lazy_check_text.
    assert (A : ascii_only (strip (text_after_colon (first_line message)))
                = true).
    { apply forallb_strip, forallb_text_after_colon.
      unfold first_line; apply forallb_take_while, forallb_strip, H. }
    rewrite !lower_ascii by exact A; reflexivity. }
  rewrite E; reflexivity.
Qed.

Lemma validate_ascii_any_table_witness :
  validate_commit_message caseless (lit "DSO-1: WIP.")
  = validate_commit_message (fun _ _ _ => lit "fix") (lit "DSO-1: WIP.").
Proof.
  apply validate_ascii_any_table; reflexivity.
Defined.

(* ----------------------------------------------------------------- *)
(** *** Lazy summaries behind a ticket *)

(** A comparison of code points as a proposition. *)
Ltac props :=
  rewrite ?orb_true_iff, ?andb_true_iff, ?N.leb_le, ?N.eqb_eq, ?N.ltb_lt in *.

Lemma digit_plain (c : N) :
  is_digit c = true ->
  isspace c = false /\ is_linebreak c = false /\ (ch ":" =? c) = false.
Proof.
  unfold is_digit; change (ch "0") with 48; change (ch "9") with 57.
  change (ch ":") with 58; intros H; props.
  repeat split.
  - destruct (isspace c) eqn:E; [exfalso|reflexivity].
    unfold isspace in E; props; lia.
  - destruct (is_linebreak c) eqn:E; [exfalso|reflexivity].
    unfold is_linebreak in E; props; lia.
  - apply N.eqb_neq; lia.
Qed.

Lemma letter_plain (c : N) :
  is_letter c = true ->
  isspace c = false /\ is_linebreak c = false /\ (c <? 0x80) = true.
Proof.
  unfold is_letter; change (ch "A") with 65; change (ch "Z") with 90.
  change (ch "a") with 97; change (ch "z") with 122; intros H; props.
  repeat split.
  - destruct (isspace c) eqn:E; [exfalso|reflexivity].
    unfold isspace in E; props; lia.
  - destruct (is_linebreak c) eqn:E; [exfalso|reflexivity].
    unfold is_linebreak in E; props; lia.
  - props; lia.
Qed.

Lemma small_of_lower (c : N) :
  is_small (ascii_lower c) = true -> is_letter c = true.
Proof.
  unfold ascii_lower, is_letter, is_small.
  destruct ((ch "A" <=? c) && (c <=? ch "Z")); [reflexivity|].
  intros ->; reflexivity.
Qed.

Lemma letters_of_lower (text : str) :
  forallb is_small (map ascii_lower text) = true ->
  forallb is_letter text = true.
Proof.
  induction text as [|c text IH]; simpl; [reflexivity|].
  intros H; apply andb_true_iff in H as [Hc H].
  rewrite (small_of_lower c Hc), (IH H); reflexivity.
Qed.

Lemma forallb_impl (p q : N -> bool) (s : str) :
  (forall c, p c = true -> q c = true) ->
  forallb p s = true -> forallb q s = true.
Proof.
  intros Hpq; induction s as [|c s IH]; simpl; [reflexivity|].
  intros H; apply andb_true_iff in H as [Hc H].
  rewrite (Hpq c Hc), (IH H); reflexivity.
Qed.

Lemma forallb_periods (q : N -> bool) (k : nat) :
  q (ch ".") = true -> forallb q (periods k) = true.
Proof.
  intros H; unfold periods; induction k as [|k IH]; [reflexivity|].
  cbn [repeat forallb]; rewrite H, IH; reflexivity.
Qed.

Lemma map_lower_periods (k : nat) : map ascii_lower (periods k) = periods k.
Proof.
  unfold periods; induction k as [|k IH]; [reflexivity|].
  cbn [repeat map]; rewrite IH; reflexivity.
Qed.

Lemma drop_while_none (p : N -> bool) (s : str) :
  forallb (fun c => negb (p c)) s = true -> drop_while p s = s.
Proof.
  destruct s as [|c s]; simpl; [reflexivity|].
  intros H; apply andb_true_iff in H as [Hc _].
  destruct (p c); [discriminate Hc | reflexivity].
Qed.

(** Text that ends in characters that are no whitespace keeps its end. *)
Lemma rstrip_solid_end (a b : str) :
  b <> [] -> forallb (fun c => negb (isspace c)) b = true ->
  rstrip (a ++ b) = a ++ b.
Proof.
  intros Hne Hb; unfold rstrip.
  rewrite rev_app_distr, drop_while_app.
  rewrite (drop_while_none isspace (rev b))
    by (rewrite forallb_rev; exact Hb).
  destruct (rev b) as [|c t] eqn:E.
  - apply (f_equal (@rev N)) in E; rewrite rev_involutive in E.
    contradiction.
  - rewrite <- E, <- rev_app_distr, rev_involutive; reflexivity.
Qed.

Lemma strip_solid (s : str) :
  forallb (fun c => negb (isspace c)) s = true -> strip s = s.
Proof.
  intros H; unfold strip, lstrip; rewrite (drop_while_none _ _ H).
  destruct s as [|c t]; [reflexivity|].
  apply (rstrip_solid_end [] (c :: t)); [discriminate | exact H].
Qed.

Lemma partition_at_other (c : N) (s : str) :
  (ch ":" =? c) = false ->
  partition_at (lit ": ") (c :: s)
  = match partition_at (lit ": ") s with
    | Some (before, after) => Some (c :: before, after)
    | None => None
    end.
Proof.
  intros H; change (lit ": ") with [ch ":"; ch " "].
  cbn [partition_at starts_with]; rewrite H; reflexivity.
Qed.

Lemma partition_at_digits (digits rest : str) :
  forallb is_digit digits = true ->
  partition_at (lit ": ") (digits ++ lit ": " ++ rest) = Some (digits, rest).
Proof.
  induction digits as [|d digits IH]; intros H.
  - reflexivity.
  - simpl in H; apply andb_true_iff in H as [Hd H].
    cbn [app]; rewrite partition_at_other by apply (digit_plain d Hd).
    rewrite (IH H); reflexivity.
Qed.

(** The text the lazy check looks at on a ticket line is what follows the
    ticket. *)
Lemma text_after_ticket (digits rest : str) :
  forallb is_digit digits = true ->
  text_after_colon (lit "DSO-" ++ digits ++ lit ": " ++ rest) = rest.
Proof.
  intros H; unfold text_after_colon.
  change (lit "DSO-" ++ digits ++ lit ": " ++ rest)
    with (ch "D" :: ch "S" :: ch "O" :: ch "-"
            :: digits ++ lit ": " ++ rest).
  rewrite !partition_at_other by reflexivity.
  rewrite (partition_at_digits digits rest H); reflexivity.
Qed.

Lemma live_summary_facts (w : str) :
  In w live_summaries ->
  forallb is_small w = true
  /\ w <> []
  /\ drop_while is_period (rev w) = rev w
  /\ str_in w LAZY_SUMMARIES = true.
Proof.
  intros H; simpl in H.
  repeat (destruct H as [<-|H];
          [repeat split; first [reflexivity | discriminate]|]).
  contradiction.
Qed.

Lemma strip_periods_trailing (w : str) (k : nat) :
  drop_while is_period (rev w) = rev w ->
  strip_periods (w ++ periods k) = w.
Proof.
  intros H; unfold strip_periods, rstrip_chars; fold is_period.
  rewrite rev_app_distr, drop_while_app, drop_while_all.
  - rewrite H, rev_involutive; reflexivity.
  - rewrite forallb_rev; apply forallb_periods; reflexivity.
Qed.

(** The ticket line with a placeholder as its summary: trimmed, on one line,
    and lazy for the code. *)
Lemma lazy_ticket_line (tbl : case_table) (digits text : str) (k : nat) :
  forallb is_digit digits = true ->
  In (map ascii_lower text) live_summaries ->
  let line := lit "DSO-" ++ digits ++ lit ": " ++ text ++ periods k in
  line <> []
  /\ strip line = line
  /\ forallb (fun c => negb (is_linebreak c)) line = true
  /\ str_in (strip_periods (lazy_check_text tbl line)) LAZY_SUMMARIES = true.
Proof.
  intros Hdig Hin line.
  destruct (live_summary_facts _ Hin) as (Hsmall & Hne & Hkeep & Hlazy).
  assert (Hlet : forallb is_letter text = true)
    by (apply letters_of_lower; exact Hsmall).
  assert (Htext : text <> []) by (intros ->; apply Hne; reflexivity).
  assert (Hsolid : forallb (fun c => negb (isspace c)) (text ++ periods k)
                   = true).
  { rewrite forallb_app; apply andb_true_iff; split.
    - apply (forallb_impl is_letter); [|exact Hlet].
      intros c Hc; destruct (letter_plain c Hc) as (-> & _); reflexivity.
    - apply forallb_periods; reflexivity. }
  assert (Hascii : ascii_only (text ++ periods k) = true).
  { unfold ascii_only; rewrite forallb_app; apply andb_true_iff; split.
    - apply (forallb_impl is_letter); [|exact Hlet].
      intros c Hc; apply (letter_plain c Hc).
    - apply forallb_periods; reflexivity. }
  split; [discriminate|]; split; [|split].
  - assert (Hl : lstrip line = line) by reflexivity.
    unfold strip; rewrite Hl; subst line.
    rewrite !app_assoc, <- (app_assoc _ text).
    apply rstrip_solid_end; [|exact Hsolid].
    destruct text; [congruence | discriminate].
  - subst line; rewrite !forallb_app.
    repeat (apply andb_true_iff; split); try reflexivity.
    + apply (forallb_impl is_digit); [|exact Hdig].
      intros c Hc; destruct (digit_plain c Hc) as (_ & -> & _); reflexivity.
    + apply (forallb_impl is_letter); [|exact Hlet].
      intros c Hc; destruct (letter_plain c Hc) as (_ & -> & _); reflexivity.
    + apply forallb_periods; reflexivity.
  - subst line; unfold lazy_check_text.
    rewrite (text_after_ticket digits _ Hdig), (strip_solid _ Hsolid).
    rewrite (lower_ascii tbl _ Hascii), map_app, map_lower_periods.
    rewrite (strip_periods_trailing _ k Hkeep); exact Hlazy.
Qed.

(** X14: behind any ticket number, a placeholder of [LAZY_SUMMARIES] in
    upper or lower case, followed by any number of periods, is rejected as a
    lazy summary, alone or with a body after it, also when the line matches
    [JIRA_PATTERN]. *)
Theorem lazy_ticket_rejected
  (tbl : case_table) (digits text : str) (k : nat) :
  forallb is_digit digits = true ->
  In (map ascii_lower text) live_summaries ->
  let line := lit "DSO-" ++ digits ++ lit ": " ++ text ++ periods k in
  validate_commit_message tbl line = Return (Some (lazy_message line))
  /\ (forall b body,
         is_linebreak b = true ->
         validate_commit_message tbl (line ++ b :: body)
         = Return (Some (lazy_message line)))
  /\ mentions "Lazy" (lazy_message line).
Proof.
  intros Hdig Hin line.
  destruct (lazy_ticket_line tbl digits text k Hdig Hin)
    as (Hne & Hstrip & Hline & Hlazy); fold line in Hne, Hstrip, Hline, Hlazy.
  assert (Hone : first_line line = line)
    by (apply first_line_alone; assumption).
  split; [|split; [|reflexivity]].
  - rewrite <- Hone at 2.
    apply validate_lazy; rewrite Hone; assumption.
  - intros b body Hb.
    assert (Hbody : first_line (line ++ b :: body) = line)
      by (apply first_line_with_body; assumption).
    rewrite <- Hbody at 2.
    apply validate_lazy; rewrite Hbody; assumption.
Qed.

Lemma lazy_ticket_rejected_witness :
  validate_commit_message caseless (lit "DSO-1234: Wip...")
  = Return (Some (lazy_message (lit "DSO-1234: Wip..."))).
Proof.
  apply (proj1 (lazy_ticket_rejected caseless (lit "1234") (lit "Wip") 3
                  eq_refl (or_intror (or_intror (or_introl eq_refl))))).
Defined.

(* ----------------------------------------------------------------- *)
(** *** The test suite *)

Lemma strip_periods_solid_end (a b : str) :
  b <> [] -> forallb (fun c => negb (is_period c)) b = true ->
  strip_periods (a ++ b) = a ++ b.
Proof.
  intros Hne Hb; unfold strip_periods, rstrip_chars; fold is_period.
  rewrite rev_app_distr, drop_while_app.
  rewrite (drop_while_none is_period (rev b))
    by (rewrite forallb_rev; exact Hb).
  destruct (rev b) as [|c t] eqn:E.
  - apply (f_equal (@rev N)) in E; rewrite rev_involutive in E.
    contradiction.
  - rewrite <- E, <- rev_app_distr, rev_involutive; reflexivity.
Qed.

(** [test_unicode_in_summary]: whatever the case table makes of the accented
    letter, the summary starts with ["add caf"] and is no placeholder. *)
Lemma unicode_summary_valid (tbl : case_table) :
  validate_commit_message tbl (lit "DSO-1: Add caf" ++ [0xE9] ++ lit " support")
  = Return None.
Proof.
  rewrite validate_cases.
  set (m := lit "DSO-1: Add caf" ++ [0xE9] ++ lit " support").
  assert (F : first_line m = m) by reflexivity.
  assert (M : re_match JIRA_PATTERN m = true) by reflexivity.
  assert (L : str_in (strip_periods (lazy_check_text tbl m)) LAZY_SUMMARIES
              = false).
  { unfold lazy_check_text.
    change (lower tbl (strip (text_after_colon m)))
      with ((lit "add caf" ++ tbl (lit "Add caf") 0xE9 (lit " support"))
              ++ lit " support").
    rewrite strip_periods_solid_end by first [discriminate | reflexivity].
    reflexivity. }
  rewrite F, L, M; reflexivity.
Qed.

Lemma forallb_repeat (q : N -> bool) (c : N) (n : nat) :
  q c = true -> forallb q (repeat c n) = true.
Proof.
  intros H; induction n as [|n IH]; [reflexivity|].
  cbn [repeat forallb]; rewrite H, IH; reflexivity.
Qed.

(** [test_very_long_valid_message], for every length from two on: a summary
    of capital letters [A] is valid. *)
Lemma capital_run_valid (tbl : case_table) (n : nat) :
  (2 <=? n)%nat = true ->
  validate_commit_message tbl (lit "DSO-1: " ++ repeat (ch "A") n)
  = Return None.
Proof.
  intros Hn; apply Nat.leb_le in Hn.
  destruct n as [|[|n]]; [lia | lia | clear Hn].
  set (run := repeat (ch "A") (S (S n))).
  set (m := lit "DSO-1: " ++ run).
  assert (Hsolid : forallb (fun c => negb (isspace c)) run = true)
    by (apply forallb_repeat; reflexivity).
  assert (Hstrip : strip m = m).
  { assert (Hl : lstrip m = m) by reflexivity.
    unfold strip; rewrite Hl.
    apply rstrip_solid_end; [discriminate | exact Hsolid]. }
  assert (Hline : forallb (fun c => negb (is_linebreak c)) m = true).
  { unfold m; rewrite forallb_app; apply andb_true_iff; split;
      [reflexivity | apply forallb_repeat; reflexivity]. }
  assert (F : first_line m = m) by (apply first_line_alone; assumption).
  assert (M : re_match JIRA_PATTERN m = true).
  { apply jira_shape_matches.
    - apply no_break_no_line_feed; exact Hline.
    - exists (lit "1"), (ch "A"), (repeat (ch "A") (S n)).
      repeat split; first [reflexivity | discriminate | simpl; lia]. }
  assert (L : str_in (strip_periods (lazy_check_text tbl m)) LAZY_SUMMARIES
              = false).
  { unfold lazy_check_text.
    change m with (lit "DSO-" ++ lit "1" ++ lit ": " ++ run).
    rewrite (text_after_ticket (lit "1") run eq_refl).
    rewrite (strip_solid _ Hsolid).
    rewrite lower_ascii by (apply forallb_repeat; reflexivity).
    unfold run; rewrite map_repeat.
    assert (E : strip_periods (repeat (ascii_lower (ch "A")) (S (S n)))
                = repeat (ascii_lower (ch "A")) (S (S n)))
      by (apply (strip_periods_solid_end []);
          [discriminate | apply forallb_repeat; reflexivity]).
    rewrite E; reflexivity. }
  rewrite validate_cases, F, L, M; reflexivity.
Qed.

(** Splitting a conjunction, and naming the error of a rejected message by
    evaluation. *)
Ltac conjuncts := repeat match goal with |- _ /\ _ => split end.

Ltac rejected :=
  match goal with
  | |- exists err, ?r = Return (Some err) /\ _ =>
      let v := eval vm_compute in r in
      match v with
      | Return (Some ?e) => exists e; split; vm_compute; reflexivity
      end
  | |- exists err, ?r = Return (Some err) =>
      let v := eval vm_compute in r in
      match v with
      | Return (Some ?e) => exists e; vm_compute; reflexivity
      end
  end.

(** The assertions of [tests/test_validate_jira_msg.py] hold of the
    validator, under every case table. *)
Theorem test_suite_passes (tbl : case_table) :
  let validate := validate_commit_message tbl in
  (* TestValidMessages *)
  (is_none (validate (lit "DSO-42: Implement rate limiter"))
   /\ is_none (validate (lit "DSO-99999: Large ticket number"))
   /\ is_none (validate (lit "DSO-1: Initial commit setup"))
   /\ is_none (validate (lit "DSO-10: Add SHA-256 hashing (v2)"))
   /\ is_none (validate (lit "DSO-5: Fix `client::new()` default"))
   /\ is_none (validate (lit "DSO-123: " ++ repeat (ch "A") 200))
   /\ is_none (validate (lit "DSO-42: Valid first line" ++ [LF; LF]
                           ++ lit "This is the body with details.")))
  (* TestMissingJiraId *)
  /\ (err_has "DSO" (validate (lit "Fix the download bug"))
      /\ is_not_none (validate (lit "PROJ-42: Fix something"))
      /\ is_not_none (validate (lit "Add new feature to client"))
      /\ is_not_none (validate (lit "dso-42: Lowercase prefix"))
      /\ is_not_none (validate (lit "DSO-: Missing number"))
      /\ is_not_none (validate (lit "DSO-42 Missing colon"))
      /\ is_not_none (validate (lit "DSO-42:Missing space")))
  (* TestLazySummaries *)
  /\ (err_has "Lazy" (validate (lit "DSO-1: fix"))
      /\ is_not_none (validate (lit "DSO-1: fix."))
      /\ is_not_none (validate (lit "DSO-1: Work"))
      /\ is_not_none (validate (lit "DSO-1: Wip"))
      /\ is_not_none (validate (lit "DSO-1: ..."))
      /\ is_not_none (validate (lit "DSO-1: Update"))
      /\ is_not_none (validate (lit "DSO-1: Changes"))
      /\ is_not_none (validate (lit "DSO-1: Stuff"))
      /\ is_not_none (validate (lit "DSO-1: Test"))
      /\ is_not_none (validate (lit "DSO-1: Done")))
  (* TestCapitalization *)
  /\ (is_not_none (validate (lit "DSO-42: implement rate limiter"))
      /\ is_not_none (validate (lit "DSO-42: 42 is the answer")))
  (* TestEdgeCases *)
  /\ ((exists err, validate [] = Return (Some err)
                   /\ contains (lit "empty") (lower tbl err) = true)
      /\ is_not_none (validate (lit "   " ++ [LF; LF] ++ lit "  "))
      /\ is_not_none (validate [LF])
      /\ is_none (validate (lit "DSO-1: " ++ repeat (ch "A") (N.to_nat 10000)))
      /\ is_none (validate (lit "DSO-1: Add caf" ++ [0xE9] ++ lit " support"))
      /\ is_none (validate ([ch "009"] ++ lit "DSO-42: Indented with tab"))).
Proof.
  cbv zeta; unfold is_none, is_not_none, err_has.
  split; [|split; [|split; [|split]]].
  - conjuncts; vm_compute; reflexivity.
  - conjuncts; rejected.
  - conjuncts; rejected.
  - conjuncts; rejected.
  - split; [|split; [|split; [|split; [|split]]]].
    + rejected.
    + rejected.
    + rejected.
    + apply capital_run_valid; vm_compute; reflexivity.
    + apply unicode_summary_valid.
    + vm_compute; reflexivity.
Qed.

(* ================================================================= *)
(** ** Further properties: the order of the allowed names *)

Lemma str_in_permutation (x : str) (l1 l2 : list str) :
  Permutation l1 l2 -> str_in x l1 = str_in x l2.
Proof.
  unfold str_in; intros P; induction P; cbn [existsb].
  - reflexivity.
  - rewrite IHP; reflexivity.
  - rewrite !orb_assoc, (orb_comm (str_eqb x y)); reflexivity.
  - congruence.
Qed.

(** A list with a repeated entry is not duplicate-free. *)
Ltac repeated_entry :=
  exfalso;
  repeat match goal with
         | H : NoDup (_ :: _) |- _ => apply NoDup_cons_iff in H; destruct H
         end;
  match goal with
  | H : ~ In _ _ |- _ => solve [apply H; simpl; auto]
  end.

(** X17: the allowed names are kept in a set, which has no order of its own;
    the script sorts them before it prints them and otherwise only asks for
    membership.  So in whatever order the set gives its four names, the list
    printed is [COMMIT_EDITMSG, MERGE_MSG, SQUASH_MSG, TAG_EDITMSG] and the
    membership test gives the same answers. *)
Theorem allowed_names_order_free (names : list str) :
  Permutation names _ALLOWED_MSG_FILES ->
  sorted names = _ALLOWED_MSG_FILES
  /\ join (lit ", ") (sorted names)
     = lit "COMMIT_EDITMSG, MERGE_MSG, SQUASH_MSG, TAG_EDITMSG"
  /\ forall x, str_in x names = str_in x _ALLOWED_MSG_FILES.
Proof.
  intros P.
  split; [|split; [|intros x; apply str_in_permutation; exact P]].
  all: pose proof (Permutation_length P) as L.
  all: assert (ND : NoDup names)
    by (apply (Permutation_NoDup (Permutation_sym P));
        repeat constructor; simpl; intuition discriminate).
  all: assert (IN : forall x, In x names -> In x _ALLOWED_MSG_FILES)
    by (intros x Hx; exact (Permutation_in x P Hx)).
  all: destruct names as [|x1 [|x2 [|x3 [|x4 [|x5 names]]]]];
    try discriminate L.
  all: pose proof (IN x1 (or_introl eq_refl)) as H1.
  all: pose proof (IN x2 (or_intror (or_introl eq_refl))) as H2.
  all: pose proof (IN x3 (or_intror (or_intror (or_introl eq_refl)))) as H3.
  all: pose proof (IN x4 (or_intror (or_intror (or_intror (or_introl eq_refl)))))
    as H4.
  all: clear IN P L; simpl in H1, H2, H3, H4.
  all: destruct H1 as [<-|[<-|[<-|[<-|[]]]]];
    destruct H2 as [<-|[<-|[<-|[<-|[]]]]];
    destruct H3 as [<-|[<-|[<-|[<-|[]]]]];
    destruct H4 as [<-|[<-|[<-|[<-|[]]]]];
    first [reflexivity | repeated_entry].
Qed.

Lemma allowed_names_order_free_witness :
  sorted [ lit "TAG_EDITMSG"; lit "COMMIT_EDITMSG"; lit "SQUASH_MSG";
           lit "MERGE_MSG" ]
  = _ALLOWED_MSG_FILES.
Proof.
  apply (proj1 (allowed_names_order_free
                  [ lit "TAG_EDITMSG"; lit "COMMIT_EDITMSG"; lit "SQUASH_MSG";
                    lit "MERGE_MSG" ]
                  ltac:(unfold _ALLOWED_MSG_FILES;
                        apply Permutation_sym;
                        eapply perm_trans;
                        [apply perm_skip, perm_skip, perm_swap|];
                        eapply perm_trans;
                        [apply perm_skip, perm_swap|];
                        eapply perm_trans;
                        [apply perm_swap|];
                        apply perm_skip, perm_skip, perm_swap))).
Defined.

(* ================================================================= *)
(** ** Further properties: the first line *)

(** X18: the line the validator judges.  The first line is always found; it
    holds no line boundary of any kind, it does not start with whitespace,
    and it is empty exactly when the message is made of whitespace only. *)
Theorem first_line_of_properties (message : str) :
  exists line,
    first_line_of message = Return line
    /\ forallb (fun c => negb (is_linebreak c)) line = true
    /\ (forall c rest, line = c :: rest -> isspace c = false)
    /\ (line = [] <-> blank message).
Proof.
  exists (first_line message).
  split; [apply first_line_of_spec|].
  split; [apply first_line_no_break|].
  split.
  - unfold first_line; intros c rest E.
    destruct (strip message) as [|d t] eqn:S; [discriminate E|].
    simpl in E; destruct (is_linebreak d); [discriminate E|].
    simpl in E; inversion E; subst d.
    exact (strip_head _ _ _ S).
  - rewrite first_line_empty; split; [apply strip_nil_blank | apply strip_blank].
Qed.

(** X19: of the text of the commit message file, [main] sees the first line
    only: on two file systems that resolve [.git] alike and whose files
    differ at most in what follows the first line of their trimmed text, the
    run is the same, status and text on standard error; no part of the body
    of the message is printed. *)
Theorem main_sees_first_line_only
  (tbl : case_table) (fs1 fs2 : filesystem) (argv : list str) :
  same_first_lines fs1 fs2 ->
  main tbl fs1 argv = main tbl fs2 argv.
Proof.
  intros [Hdir H].
  destruct argv as [|prog [|arg extra]]; [reflexivity | reflexivity |].
  rewrite !main_cases.
  unfold _safe_commit_msg_path, is_file, read_text; rewrite <- Hdir.
  destruct (str_in (basename arg) _ALLOWED_MSG_FILES); [|reflexivity].
  cbn [negb].
  destruct (resolve fs1 (lit ".git")) as [git_dir|e]; [|reflexivity].
  cbn [bind].
  set (path := path_join git_dir (basename arg)) in *.
  specialize (H path).
  destruct (entry_at fs1 path) as [| |[text1|e1]|e1] eqn:E1;
    destruct (entry_at fs2 path) as [| |[text2|e2]|e2] eqn:E2;
    cbn [bind negb]; rewrite ?E1, ?E2; try discriminate H; try reflexivity.
  - rewrite (validate_same_first_line tbl text1 text2 H); reflexivity.
  - injection H as ->; reflexivity.
  - injection H as ->; reflexivity.
Qed.

Lemma main_sees_first_line_only_witness :
  main caseless
    (one_message (lit "dso-1: bad" ++ [LF; LF] ++ lit "A secret body."))
    [lit "hook"; lit "COMMIT_EDITMSG"]
  = main caseless
      (one_message (lit "dso-1: bad" ++ [LF] ++ lit "Another body."))
      [lit "hook"; lit "COMMIT_EDITMSG"].
Proof.
  apply main_sees_first_line_only.
  split; [reflexivity|].
  intros p; unfold one_message; cbn [entry_at].
  destruct (str_eqb p (lit "/repo/.git/COMMIT_EDITMSG")); reflexivity.
Defined.
